(** * The sc2reader game engine: event dispatch, plugin exit and handler cache

    A shallow embedding of [sc2reader/engine/engine.py] (class [GameEngine])
    and the properties of its run loop.

    Python objects are modelled by references into stores:
    - a plugin is a reference ([Plugin], a [nat]); the store [objs] maps it to
      its [name] if it has one, to what [self == other] evaluates to for
      each other object, and to its attributes, which hold a function,
      [None] or some other value ([hasattr]/[getattr] are lookups there);
      [list.remove] compares with [==], which is identity unless a class
      defines [__eq__];
    - the lists of plugins ([self._plugins] and the local [plugins] of [run])
      live in a heap [gmap nat (list Plugin)], so that the copy made by
      [list(self._plugins)] is a different object from the registry;
    - a handler is what [getattr] returned: the bound method of a plugin
      (the plugin and the attribute name), [None], or another value.
    The [while] loop of [run] need not terminate (handlers may yield events
    for ever), so it is run with fuel and returns the state it reached. *)

From Stdlib Require Import ZArith.
From stdpp Require Import gmap strings list fin_maps.

Local Open Scope string_scope.
Local Open Scope list_scope.
Local Open Scope nat_scope.

(** ** Events *)

(** The seven classes that [_get_plugin_event_handlers] tests with
    [isinstance], in the order of the tests. *)
Inductive Category : Set :=
  | Event
  | MessageEvent
  | GameEvent
  | TrackerEvent
  | PlayerActionEvent
  | AbilityEvent
  | HotkeyEvent.

Global Instance Category_eq_dec : EqDecision Category.
Proof. solve_decision. Defined.

(** Modelled from the spec: the [name] attribute of the seven category
    classes of [sc2reader.events] (that module is not part of the sources);
    the spec names the handlers [handle<Category>] after them. *)
Definition class_name (c : Category) : string :=
  match c with
  | Event => "Event"
  | MessageEvent => "MessageEvent"
  | GameEvent => "GameEvent"
  | TrackerEvent => "TrackerEvent"
  | PlayerActionEvent => "PlayerActionEvent"
  | AbilityEvent => "AbilityEvent"
  | HotkeyEvent => "HotkeyEvent"
  end.

(** A plugin is a reference to a Python object. *)
Abbreviation Plugin := nat (only parsing).

(** An event object. [Instance] is any event with its concrete [name], the
    category classes among its ancestors and some payload; [PluginExit] is
    the control event of [sc2reader.engine.events], carrying the exiting
    plugin, the exit code and the details dict. *)
Inductive EventObj : Type :=
  | Instance (ev_name : string) (bases : list Category) (payload : Z)
  | PluginExit (plugin : Plugin) (code : Z) (details : gmap string string).

(** What the engine passes to [_has_event_handler]: one of the category
    classes, or an event object. Both have a [name]. *)
Inductive EventRef : Type :=
  | Class (c : Category)
  | Obj (e : EventObj).

Definition ev_name_of (e : EventObj) : string :=
  match e with
  | Instance n _ _ => n
  | PluginExit _ _ _ => "PluginExit"
  end.

Definition name (x : EventRef) : string :=
  match x with
  | Class c => class_name c
  | Obj e => ev_name_of e
  end.

(** [isinstance(event, C)] for a category class [C]. The control event is a
    plain object and an instance of none of them. *)
Definition isinstance (event : EventObj) (c : Category) : bool :=
  match event with
  | Instance _ bases _ => bool_decide (c ∈ bases)
  | PluginExit _ _ _ => false
  end.

(** Modelled from the spec: the two sentinel events of
    [sc2reader.engine.events] (not part of the sources), matched by their own
    concrete names [InitGame] and [EndGame]; they are engine events outside
    the seven categories. *)
Definition InitGameEvent : EventObj := Instance "InitGame" [] 0.
Definition EndGameEvent : EventObj := Instance "EndGame" [] 0.

(** ** Handlers, plugins and the replay *)

(** The value [getattr(plugin, 'handle' + name, None)] returns: a bound
    method of the plugin, [None] (the default, or what the attribute holds),
    or the value of an attribute that is neither a function nor [None]. *)
Inductive Handler : Set :=
  | BoundMethod (self : Plugin) (attr : string)
  | PyNone
  | PyValue (self : Plugin) (attr : string).

Global Instance Handler_eq_dec : EqDecision Handler.
Proof. solve_decision. Defined.

(** The plugin a handler belongs to. *)
Definition handler_self (h : Handler) : option Plugin :=
  match h with
  | BoundMethod p _ => Some p
  | PyNone => None
  | PyValue p _ => Some p
  end.

Inductive Exn : Set :=
  | ValueError       (* list.remove(x): x not in list *)
  | AttributeError   (* a missing attribute *)
  | TypeError        (* calling what is not callable *)
  | HandlerFault.    (* whatever a handler raised *)

Section Model.

(** Everything a handler can reach besides the engine's own data: the
    plugins' private state and the rest of the replay. *)
Variable U : Type.

(** The replay: its input events, the outcome mapping [replay.plugins]
    and the remaining state. *)
Record Replay : Type := mkReplay {
  replay_events : list EventObj;
  replay_plugins : gmap string (Z * gmap string string);
  replay_user : U
}.

(** A call [handler(event, replay)]: it returns [None] or a sequence of
    new events (a generator is drained by [extend]), or raises; either way
    it may have changed the replay. *)
Inductive HandlerResult : Type :=
  | Returns (r : option (list EventObj)) (replay : Replay)
  | Raises (replay : Replay).

(** What an attribute of a plugin holds: something that can be called (a
    method; what the call does is [f]), [None], or another value that
    cannot be called. *)
Inductive Attr : Type :=
  | Function (f : EventObj → Replay → HandlerResult)
  | NoneValue
  | OtherValue.

(** A plugin object: its [name] attribute if it has one, what
    [self == other] evaluates to for each other object (by the [__eq__] of
    its class or, where that leaves the answer open, of the other's), and
    its other attributes. *)
Record PluginObj : Type := mkPlugin {
  plugin_name : option string;
  plugin_eq : Plugin → bool;
  attrs : gmap string Attr
}.

(** The store of plugin objects. *)
Variable objs : Plugin → PluginObj.

(** [hasattr(plugin, a)]: the attribute exists, whatever it holds. *)
Definition hasattr (plugin : Plugin) (a : string) : bool :=
  bool_decide (is_Some (attrs (objs plugin) !! a)).

(** [getattr(plugin, a, default)]. *)
Definition getattr (plugin : Plugin) (a : string) (default : Handler) : Handler :=
  match attrs (objs plugin) !! a with
  | Some (Function _) => BoundMethod plugin a
  | Some NoneValue => PyNone
  | Some OtherValue => PyValue plugin a
  | None => default
  end.

(** [item == value], as [list.remove] tests it: the same object, or an
    object that [item == value] holds for. *)
Definition py_eq (item value : Plugin) : bool :=
  bool_decide (item = value) || plugin_eq (objs item) value.

(** ** Handler resolution *)

Definition _has_event_handler (plugin : Plugin) (event : EventRef) : bool :=
  hasattr plugin ("handle" +:+ name event).

Definition _get_event_handler (plugin : Plugin) (event : EventRef) : Handler :=
  getattr plugin ("handle" +:+ name event) PyNone.

Definition _get_plugin_event_handlers (plugin : Plugin) (event : EventObj)
  : list Handler :=
  let handlers := [] in
  let handlers :=
    if isinstance event Event && _has_event_handler plugin (Class Event)
    then handlers ++ [_get_event_handler plugin (Class Event)] else handlers in
  let handlers :=
    if isinstance event MessageEvent && _has_event_handler plugin (Class MessageEvent)
    then handlers ++ [_get_event_handler plugin (Class MessageEvent)] else handlers in
  let handlers :=
    if isinstance event GameEvent && _has_event_handler plugin (Class GameEvent)
    then handlers ++ [_get_event_handler plugin (Class GameEvent)] else handlers in
  let handlers :=
    if isinstance event TrackerEvent && _has_event_handler plugin (Class TrackerEvent)
    then handlers ++ [_get_event_handler plugin (Class TrackerEvent)] else handlers in
  let handlers :=
    if isinstance event PlayerActionEvent
       && _has_event_handler plugin (Class PlayerActionEvent)
    then handlers ++ [_get_event_handler plugin (Class PlayerActionEvent)]
    else handlers in
  let handlers :=
    if isinstance event AbilityEvent && _has_event_handler plugin (Class AbilityEvent)
    then handlers ++ [_get_event_handler plugin (Class AbilityEvent)] else handlers in
  let handlers :=
    if isinstance event HotkeyEvent && _has_event_handler plugin (Class HotkeyEvent)
    then handlers ++ [_get_event_handler plugin (Class HotkeyEvent)] else handlers in
  let handlers :=
    if _has_event_handler plugin (Obj event)
    then handlers ++ [_get_event_handler plugin (Obj event)] else handlers in
  handlers.

(** [sum(list_of_lists, [])]: a left fold of [+] from the empty list. *)
Definition builtin_sum (ls : list (list Handler)) (start : list Handler)
  : list Handler :=
  foldl (λ acc l, acc ++ l) start ls.

Definition _get_event_handlers (event : EventObj) (plugins : list Plugin)
  : list Handler :=
  builtin_sum (map (λ plugin, _get_plugin_event_handlers plugin event) plugins) [].

(** ** The engine and its registry *)

(** The engine object: [_plugins] refers to a list in the heap. *)
Record GameEngine : Set := mkEngine { _plugins : nat }.

Definition register_plugin (h : gmap nat (list Plugin)) (self : GameEngine)
    (plugin : Plugin) : gmap nat (list Plugin) :=
  <[_plugins self := (h !!! _plugins self) ++ [plugin]]> h.

Definition register_plugins (h : gmap nat (list Plugin)) (self : GameEngine)
    (plugins : list Plugin) : gmap nat (list Plugin) :=
  foldl (λ h plugin, register_plugin h self plugin) h plugins.

(** [GameEngine(plugins)]: a new list object for [_plugins], then the
    registrations. *)
Definition __init__ (h : gmap nat (list Plugin)) (plugins : list Plugin)
  : GameEngine * gmap nat (list Plugin) :=
  let self := mkEngine (fresh (dom h)) in
  (self, register_plugins (<[_plugins self := []]> h) self plugins).

(** ** The run loop *)

(** What the run does, in the order it does it. This log is not data of
    the program: it records which event was processed with which handler
    list, each call that enters a handler, and each plugin exit. Calling
    what cannot be called raises before anything is entered and is not
    logged as a call. *)
Inductive Obs : Type :=
  | Dispatch (event : EventObj) (event_handlers : list Handler)
  | Invoke (event_handler : Handler) (event : EventObj)
  | Exit (plugin : Plugin).

(** The local variables of [run], the heap they refer to, the replay, and
    the log. [plugins] is the reference of the local list of active
    plugins. *)
Record RunState : Type := mkState {
  heap : gmap nat (list Plugin);
  handlers : gmap string (list Handler);
  plugins : nat;
  replay : Replay;
  event_queue : list EventObj;
  trace : list Obs
}.

(** The list of active plugins: the contents of the local list. *)
Definition active (s : RunState) : list Plugin := heap s !!! plugins s.

(** [l.remove(x)]: drops the first element that is [==] to [x]; [None]
    stands for the [ValueError] raised when there is none. *)
Fixpoint list_remove (x : Plugin) (l : list Plugin) : option (list Plugin) :=
  match l with
  | [] => None
  | y :: l' => if py_eq y x then Some l' else (y ::.) <$> list_remove x l'
  end.

(** [deque.appendleft] and [deque.extendleft]: the latter is a series of
    the former, in the order of its argument. *)
Definition appendleft (q : list EventObj) (e : EventObj) : list EventObj := e :: q.

Definition extendleft (q : list EventObj) (new_events : list EventObj)
  : list EventObj :=
  foldl appendleft q new_events.

Inductive Result : Type :=
  | Normal (s : RunState)
  | Raised (x : Exn) (s : RunState).

(** Whether [event_handler(...)] enters a function at all. *)
Definition callable (event_handler : Handler) : bool :=
  match event_handler with
  | BoundMethod p a =>
      match attrs (objs p) !! a with
      | Some (Function _) => true
      | _ => false
      end
  | _ => false
  end.

(** One call [event_handler(event, replay)]; calling what is not a function
    raises [TypeError]. *)
Definition call (event_handler : Handler) (event : EventObj) (replay : Replay)
  : Exn * Replay + option (list EventObj) * Replay :=
  match event_handler with
  | BoundMethod p a =>
      match attrs (objs p) !! a with
      | Some (Function f) =>
          match f event replay with
          | Returns r replay' => inr (r, replay')
          | Raises replay' => inl (HandlerFault, replay')
          end
      | _ => inl (TypeError, replay)
      end
  | _ => inl (TypeError, replay)
  end.

(** [for event_handler in event_handlers:
       new_events.extend(event_handler(event, replay) or [])]
    The log gains a call when a function is entered. *)
Fixpoint for_event_handler (event_handlers : list Handler) (event : EventObj)
    (new_events : list EventObj) (replay : Replay) (trace : list Obs)
  : Exn * Replay * list Obs + list EventObj * Replay * list Obs :=
  match event_handlers with
  | [] => inr (new_events, replay, trace)
  | event_handler :: rest =>
      let trace :=
        if callable event_handler
        then trace ++ [Invoke event_handler event] else trace in
      match call event_handler event replay with
      | inl (x, replay') => inl (x, replay', trace)
      | inr (r, replay') =>
          for_event_handler rest event (new_events ++ default [] r) replay' trace
      end
  end.

(** The body of the [while] loop, for the event taken from the front of the
    queue; [s] is the state after [popleft]. *)
Definition loop_body (event : EventObj) (s : RunState) : Result :=
  if decide (name (Obj event) = "PluginExit") then
    match event with
    | Instance _ _ _ => Raised AttributeError s
    | PluginExit plugin code details =>
        match list_remove plugin (active s) with
        | None => Raised ValueError s
        | Some l =>
            (* plugins.remove(event.plugin); handlers.clear() *)
            let s1 := {| heap := <[plugins s := l]> (heap s);
                         handlers := ∅;
                         plugins := plugins s;
                         replay := replay s;
                         event_queue := event_queue s;
                         trace := trace s ++ [Exit plugin] |} in
            (* replay.plugins[event.plugin.name] = (event.code, event.details) *)
            match plugin_name (objs plugin) with
            | None => Raised AttributeError s1
            | Some n =>
                Normal {| heap := heap s1;
                          handlers := handlers s1;
                          plugins := plugins s1;
                          replay :=
                            {| replay_events := replay_events (replay s);
                               replay_plugins :=
                                 <[n := (code, details)]>
                                   (replay_plugins (replay s));
                               replay_user := replay_user (replay s) |};
                          event_queue := event_queue s1;
                          trace := trace s1 |}
            end
        end
    end
  else
    let '(event_handlers, handlers') :=
      match handlers s !! name (Obj event) with
      | None =>
          let event_handlers := _get_event_handlers event (active s) in
          (event_handlers, <[name (Obj event) := event_handlers]> (handlers s))
      | Some event_handlers => (event_handlers, handlers s)
      end in
    match for_event_handler event_handlers event [] (replay s)
            (trace s ++ [Dispatch event event_handlers]) with
    | inl (x, replay', trace') =>
        Raised x {| heap := heap s; handlers := handlers'; plugins := plugins s;
                    replay := replay'; event_queue := event_queue s;
                    trace := trace' |}
    | inr (new_events, replay', trace') =>
        Normal {| heap := heap s; handlers := handlers'; plugins := plugins s;
                  replay := replay';
                  event_queue := extendleft (event_queue s) new_events;
                  trace := trace' |}
    end.

Definition popleft (s : RunState) (rest : list EventObj) : RunState :=
  {| heap := heap s; handlers := handlers s; plugins := plugins s;
     replay := replay s; event_queue := rest; trace := trace s |}.

(** How far a run got: the queue was drained, an exception left the loop,
    or the fuel ran out with events still queued. *)
Inductive Outcome : Type :=
  | Finished (s : RunState)
  | Aborted (x : Exn) (s : RunState)
  | Running (s : RunState).

Definition state_of (o : Outcome) : RunState :=
  match o with
  | Finished s | Aborted _ s | Running s => s
  end.

(** [while len(event_queue) > 0: ...] *)
Fixpoint while_loop (fuel : nat) (s : RunState) : Outcome :=
  match event_queue s with
  | [] => Finished s
  | event :: rest =>
      match fuel with
      | O => Running s
      | S fuel' =>
          match loop_body event (popleft s rest) with
          | Raised x s' => Aborted x s'
          | Normal s' => while_loop fuel' s'
          end
      end
  end.

(** The state of [run] when it enters the loop. *)
Definition run_init (h : gmap nat (list Plugin)) (self : GameEngine)
    (replay : Replay) : RunState :=
  let handlers := ∅ in
  let plugins := fresh (dom h) in
  let h := <[plugins := h !!! _plugins self]> h in
  let replay := {| replay_events := replay_events replay;
                   replay_plugins := ∅;
                   replay_user := replay_user replay |} in
  let event_queue := [] in
  let event_queue := event_queue ++ [InitGameEvent] in
  let event_queue := event_queue ++ replay_events replay in
  let event_queue := event_queue ++ [EndGameEvent] in
  {| heap := h; handlers := handlers; plugins := plugins; replay := replay;
     event_queue := event_queue; trace := [] |}.

(** [for plugin in plugins: replay.plugins[plugin.name] = (0, dict())];
    a plugin without [name] raises and ends the loop. *)
Fixpoint record_success (replay : Replay) (plugins : list Plugin)
  : Exn * Replay + Replay :=
  match plugins with
  | [] => inr replay
  | plugin :: rest =>
      match plugin_name (objs plugin) with
      | None => inl (AttributeError, replay)
      | Some n =>
          record_success
            {| replay_events := replay_events replay;
               replay_plugins := <[n := (0%Z, ∅)]> (replay_plugins replay);
               replay_user := replay_user replay |}
            rest
      end
  end.

Definition with_replay (s : RunState) (replay' : Replay) : RunState :=
  {| heap := heap s; handlers := handlers s; plugins := plugins s;
     replay := replay'; event_queue := event_queue s; trace := trace s |}.

(** The final [for] loop, on the state the [while] loop ended in. *)
Definition record_all (s : RunState) : Outcome :=
  match record_success (replay s) (active s) with
  | inr replay' => Finished (with_replay s replay')
  | inl (x, replay') => Aborted x (with_replay s replay')
  end.

Definition run (fuel : nat) (h : gmap nat (list Plugin)) (self : GameEngine)
    (replay : Replay) : Outcome :=
  match while_loop fuel (run_init h self replay) with
  | Finished s => record_all s
  | o => o
  end.

End Model.

Arguments mkReplay {U} _ _ _.
Arguments replay_events {U} _.
Arguments replay_plugins {U} _.
Arguments replay_user {U} _.
Arguments Returns {U} _ _.
Arguments Raises {U} _.
Arguments Function {U} _.
Arguments NoneValue {U}.
Arguments OtherValue {U}.
Arguments mkPlugin {U} _ _ _.
Arguments plugin_eq {U} _ _.
Arguments plugin_name {U} _.
Arguments attrs {U} _.
Arguments hasattr {U} objs _ _.
Arguments getattr {U} objs _ _ _.
Arguments py_eq {U} objs _ _.
Arguments list_remove {U} objs _ _.
Arguments callable {U} objs _.
Arguments _has_event_handler {U} objs _ _.
Arguments _get_event_handler {U} objs _ _.
Arguments _get_plugin_event_handlers {U} objs _ _.
Arguments _get_event_handlers {U} objs _ _.
Arguments mkState {U} _ _ _ _ _ _.
Arguments heap {U} _.
Arguments handlers {U} _.
Arguments plugins {U} _.
Arguments replay {U} _.
Arguments event_queue {U} _.
Arguments trace {U} _.
Arguments active {U} _.
Arguments Normal {U} _.
Arguments Raised {U} _ _.
Arguments call {U} objs _ _ _.
Arguments for_event_handler {U} objs _ _ _ _ _.
Arguments loop_body {U} objs _ _.
Arguments popleft {U} _ _.
Arguments Finished {U} _.
Arguments Aborted {U} _ _.
Arguments Running {U} _.
Arguments state_of {U} _.
Arguments while_loop {U} objs _ _.
Arguments run_init {U} _ _ _.
Arguments record_success {U} objs _ _.
Arguments with_replay {U} _ _.
Arguments record_all {U} objs _.
Arguments run {U} objs _ _ _ _.

(** ** Handler resolution as the specification words it *)

(** The seven categories in their precedence order. *)
Definition categories : list Category :=
  [Event; MessageEvent; GameEvent; TrackerEvent; PlayerActionEvent;
   AbilityEvent; HotkeyEvent].

(** One plugin's own list: for each category, in precedence order, that the
    event belongs to and for which the plugin exposes [handle<Category>],
    that attribute; then [handle<ConcreteEventName>] if the plugin exposes
    it. *)
Definition plugin_handlers_spec {U} (objs : Plugin → PluginObj U)
    (plugin : Plugin) (event : EventObj) : list Handler :=
  flat_map
    (λ c, if isinstance event c && hasattr objs plugin ("handle" +:+ class_name c)
          then [getattr objs plugin ("handle" +:+ class_name c) PyNone] else [])
    categories
  ++ (if hasattr objs plugin ("handle" +:+ ev_name_of event)
      then [getattr objs plugin ("handle" +:+ ev_name_of event) PyNone] else []).

(** The resolved sequence: the plugins' lists, concatenated in plugin order. *)
Definition resolved_spec {U} (objs : Plugin → PluginObj U)
    (event : EventObj) (plugins : list Plugin) : list Handler :=
  concat (map (λ plugin, plugin_handlers_spec objs plugin event) plugins).

(** A plugin matches nothing for an event: no category handler applies and
    it has no handler of the event's own name. *)
Definition matches_nothing {U} (objs : Plugin → PluginObj U)
    (plugin : Plugin) (event : EventObj) : bool :=
  forallb (λ c, negb (isinstance event c
                      && hasattr objs plugin ("handle" +:+ class_name c)))
          categories
  && negb (hasattr objs plugin ("handle" +:+ ev_name_of event)).

(** ** Properties of a log *)

(** Once [Exit p] is logged, no handler of [p] is called. *)
Definition silent_after_exit (p : Plugin) (t : list Obs) : Prop :=
  ∀ t1 t2 h e,
    t = t1 ++ Exit p :: t2 → Invoke h e ∈ t2 → handler_self h ≠ Some p.

Definition is_exit (o : Obs) : bool :=
  match o with Exit _ => true | _ => false end.

(** Two events of the same name, processed with no exit between them, got
    the same handler list. *)
Definition same_name_same_handlers (t : list Obs) : Prop :=
  ∀ t1 e1 hs1 mid e2 hs2 t3,
    t = t1 ++ Dispatch e1 hs1 :: mid ++ Dispatch e2 hs2 :: t3 →
    name (Obj e1) = name (Obj e2) →
    forallb (λ o, negb (is_exit o)) mid = true →
    hs2 = hs1.

(** How often a plugin is listed. *)
Definition occurrences (p : Plugin) (l : list Plugin) : nat :=
  length (filter (λ q, q = p) l).

(** The calls of a list of handlers for one event, as log entries. *)
Definition invocations (event : EventObj) (hs : list Handler) : list Obs :=
  map (λ h, Invoke h event) hs.

(** The state a loop body ended in, normally or not. *)
Definition result_state {U} (r : Result U) : RunState U :=
  match r with
  | Normal s | Raised _ s => s
  end.

(** The handler list the loop takes for an event: the cached list of its
    name if there is one, else the list resolved against the active plugins. *)
Definition handlers_for {U} (objs : Plugin → PluginObj U) (event : EventObj)
    (s : RunState U) : list Handler :=
  match handlers s !! name (Obj event) with
  | Some event_handlers => event_handlers
  | None => _get_event_handlers objs event (active s)
  end.

(** ** Invariants of the handler cache *)

(** Every cached handler is a method of a plugin that is still active. *)
Definition cache_sound {U} (s : RunState U) : Prop :=
  ∀ n hs h q,
    handlers s !! n = Some hs → h ∈ hs → handler_self h = Some q → q ∈ active s.

(** The list an event was processed with is cached under the event's name
    for as long as no plugin exits. *)
Definition cache_recent {U} (s : RunState U) : Prop :=
  ∀ t1 e hs mid,
    trace s = t1 ++ Dispatch e hs :: mid →
    forallb (λ o, negb (is_exit o)) mid = true →
    handlers s !! name (Obj e) = Some hs.

(** The invariant behind plugin exit, for a plugin [p] listed at most once:
    once its exit is logged it is not active, the cache only holds handlers
    of active plugins, and the log is silent about [p] after its exit. *)
Definition exit_inv {U} (p : Plugin) (s : RunState U) : Prop :=
  occurrences p (active s) ≤ 1 ∧
  cache_sound s ∧
  (Exit p ∈ trace s → p ∉ active s) ∧
  silent_after_exit p (trace s).

(** Two states of the loop that differ at most in the heap outside the
    local list of active plugins. *)
Definition same_locals {U} (s1 s2 : RunState U) : Prop :=
  active s1 = active s2 ∧ handlers s1 = handlers s2 ∧ replay s1 = replay s2 ∧
  event_queue s1 = event_queue s2 ∧ trace s1 = trace s2.


(** ** Further notions about runs *)

(** The plugins active after the exits of a log, starting from [registry]:
    each exit takes out the first entry that is [==] to its plugin. *)
Fixpoint active_after {U} (objs : Plugin → PluginObj U) (registry : list Plugin)
    (t : list Obs) : list Plugin :=
  match t with
  | [] => registry
  | Exit p :: t' =>
      active_after objs (default registry (list_remove objs p registry)) t'
  | _ :: t' => active_after objs registry t'
  end.

(** The events a log shows as processed, in order. *)
Definition dispatched (t : list Obs) : list EventObj :=
  omap (λ o, match o with Dispatch e _ => Some e | _ => None end) t.

(** Two events are instances of the same category classes. *)
Definition same_class (e1 e2 : EventObj) : bool :=
  forallb (λ c, bool_decide (isinstance e1 c = isinstance e2 c)) categories.

(** In the events of a list, the name determines the categories: the
    assumption under which a cache keyed by name is sound. *)
Definition consistent_names (l : list EventObj) : bool :=
  forallb
    (λ e1, forallb
             (λ e2, if decide (name (Obj e1) = name (Obj e2))
                    then same_class e1 e2 else true) l) l.

(** The cache holds [handle...] attributes of active plugins only, and the
    active plugins are registered ones. *)
Definition cache_bound {U} (objs : Plugin → PluginObj U) (registry : list Plugin)
    (s : RunState U) : Prop :=
  (∀ q, q ∈ active s → q ∈ registry) ∧
  ∀ n hs h,
    handlers s !! n = Some hs → h ∈ hs →
    ∃ p m, h = getattr objs p ("handle" +:+ m) PyNone ∧ p ∈ active s
           ∧ hasattr objs p ("handle" +:+ m) = true.

(** Every call in a log is a call of a [handle...] method that a registered
    plugin has, for an event that is not a plugin exit. *)
Definition calls_registered {U} (objs : Plugin → PluginObj U)
    (registry : list Plugin) (t : list Obs) : Prop :=
  ∀ h e,
    Invoke h e ∈ t →
    name (Obj e) ≠ "PluginExit"
    ∧ ∃ p m, h = BoundMethod p ("handle" +:+ m) ∧ p ∈ registry
             ∧ hasattr objs p ("handle" +:+ m) = true.

(** Every cached list is the resolution, against the plugins now active, of
    an event of that name that was processed. *)
Definition cache_exact {U} (objs : Plugin → PluginObj U) (s : RunState U) : Prop :=
  ∀ n hs,
    handlers s !! n = Some hs →
    ∃ e0, e0 ∈ dispatched (trace s) ∧ name (Obj e0) = n
          ∧ hs = _get_event_handlers objs e0 (active s).



(** Every processed event was processed with the handlers resolved for it
    against the plugins active at that point of the log. *)
Definition dispatch_exact {U} (objs : Plugin → PluginObj U)
    (registry : list Plugin) (t : list Obs) : Prop :=
  ∀ t1 e hs t2,
    t = t1 ++ Dispatch e hs :: t2 →
    hs = _get_event_handlers objs e (active_after objs registry t1).

(** A plugin all of whose attributes are functions, none of which raises or
    yields an event. *)
Definition quiet_plugin {U} (objs : Plugin → PluginObj U) (p : Plugin) : Prop :=
  map_Forall
    (λ _ v, ∃ f, v = Function f
                 ∧ ∀ e rp, ∃ r rp', f e rp = Returns r rp' ∧ default [] r = [])
    (attrs (objs p)).

(** A plugin whose methods leave the outcome mapping of the replay alone. *)
Definition keeps_outcomes {U} (objs : Plugin → PluginObj U) (p : Plugin) : Prop :=
  map_Forall
    (λ _ v, ∀ f e rp r rp',
       v = Function f → f e rp = Returns r rp' →
       replay_plugins rp' = replay_plugins rp)
    (attrs (objs p)).

(** [p in l], as Python tests it: some entry is [==] to [p]. *)
Definition py_in {U} (objs : Plugin → PluginObj U) (p : Plugin)
    (l : list Plugin) : bool :=
  existsb (λ y, py_eq objs y p) l.

(** A plugin that is [==] to no other object: it is equal to itself only. *)
Definition default_eq {U} (objs : Plugin → PluginObj U) (p : Plugin) : Prop :=
  ∀ q, plugin_eq (objs p) q = false.



(** A log that goes on with a call. *)
Definition starts_with_call (t : list Obs) : bool :=
  match t with
  | Invoke _ _ :: _ => true
  | _ => false
  end.

(** Each processed event of a log is followed by the calls of all the
    handlers of its list, in order, and by no further call. *)
Definition calls_complete (t : list Obs) : Prop :=
  ∀ t1 e hs t2,
    t = t1 ++ Dispatch e hs :: t2 →
    ∃ t3, t2 = invocations e hs ++ t3 ∧ starts_with_call t3 = false.

(** The events of a list that are not named [PluginExit]. *)
Definition ordinary (l : list EventObj) : list EventObj :=
  filter (λ e, name (Obj e) ≠ "PluginExit") l.

(** ** Plugins and replays used as concrete inputs *)

Module Fixtures.

(** The user state is what the handlers printed. *)
Definition X : EventObj := Instance "X" [] 1.
Definition Y : EventObj := Instance "Y" [] 2.

Definition yields (l : list EventObj)
  : EventObj → Replay (list string) → HandlerResult (list string) :=
  λ _ replay, Returns (Some l) replay.

(** Like [TestPlugin.handleTestEvent]: prints and returns [None]. *)
Definition prints (msg : string)
  : EventObj → Replay (list string) → HandlerResult (list string) :=
  λ _ replay,
    Returns None {| replay_events := replay_events replay;
                    replay_plugins := replay_plugins replay;
                    replay_user := replay_user replay ++ [msg] |}.

(** A plugin with a name, equal to no other object, and methods only. *)
Definition plain (n : string)
    (methods : gmap string
                 (EventObj → Replay (list string) → HandlerResult (list string)))
  : PluginObj (list string) :=
  mkPlugin (Some n) (λ _, false) (Function <$> methods).

(** Plugin 0: the bookend scenario ([handleInitGame] yields [X]). *)
Definition bookend : PluginObj (list string) :=
  plain "bookend"
    (<["handleInitGame" := yields [X]]>
       (<["handleX" := prints "X"]> (<["handleEndGame" := prints "end"]> ∅))).

(** Plugin 1: yields a batch of two events from one handler. *)
Definition batch : PluginObj (list string) :=
  plain "batch" (<["handleInitGame" := yields [X; Y]]> ∅).

(** Plugin 2: handles [X], and has a method named after the exit event. *)
Definition listener : PluginObj (list string) :=
  plain "listener"
    (<["handleX" := prints "heard X"]>
       (<["handlePluginExit" := prints "exit"]> ∅)).

(** Plugin 3: on [X], exits twice. *)
Definition quitter : PluginObj (list string) :=
  plain "quitter"
    (<["handleX" := yields [PluginExit 3 1 ∅; PluginExit 3 1 ∅]]> ∅).

(** Plugin 4: only the universal handler. *)
Definition universal : PluginObj (list string) :=
  plain "universal" (<["handleEvent" := prints "event"]> ∅).

(** Plugin 5: on [X], exits with code 7. *)
Definition leaver : PluginObj (list string) :=
  plain "leaver" (<["handleX" := yields [PluginExit 5 7 ∅]]> ∅).

(** Plugin 6: at the start, makes plugin 2 exit with code 9. *)
Definition bouncer : PluginObj (list string) :=
  plain "bouncer" (<["handleInitGame" := yields [PluginExit 2 9 ∅]]> ∅).

(** Plugin 7: its class defines [__eq__] so that [self == other] holds for
    plugin 2. *)
Definition twin : PluginObj (list string) :=
  mkPlugin (Some "twin") (λ q, bool_decide (q = 2))
    (Function <$> <["handleX" := prints "twin heard X"]> ∅).

(** Plugin 8: like [TestPlugin] of the module's own test, it has no [name]. *)
Definition nameless : PluginObj (list string) :=
  mkPlugin None (λ _, false) (Function <$> <["handleX" := prints "X"]> ∅).

(** Any other plugin: its [handleX] is [None]. *)
Definition broken : PluginObj (list string) :=
  mkPlugin (Some "broken") (λ _, false) (<["handleX" := NoneValue]> ∅).

Definition objs (p : Plugin) : PluginObj (list string) :=
  match p with
  | 0 => bookend
  | 1 => batch
  | 2 => listener
  | 3 => quitter
  | 4 => universal
  | 5 => leaver
  | 6 => bouncer
  | 7 => twin
  | 8 => nameless
  | _ => broken
  end.

Definition replay_of (events : list EventObj) : Replay (list string) :=
  mkReplay events ∅ [].

Definition empty_replay : Replay (list string) := replay_of [].

(** An event of the class [Event] itself: its name is the category's. *)
Definition plain_event : EventObj := Instance "Event" [Event] 0.

(** Two events of one name, of which only the first is an [Event]. *)
Definition Z1 : EventObj := Instance "Z" [Event] 1.
Definition Z2 : EventObj := Instance "Z" [] 2.

(** An engine built by [GameEngine(plugins)] in an empty heap. *)
Definition engine (plugins : list Plugin) : GameEngine := fst (__init__ ∅ plugins).
Definition engine_heap (plugins : list Plugin) : gmap nat (list Plugin) :=
  snd (__init__ ∅ plugins).

End Fixtures.

(** * Proofs *)

Section Resolution.

Context {U : Type} (objs : Plugin → PluginObj U).

Lemma builtin_sum_start (ls : list (list Handler)) (start : list Handler) :
  builtin_sum ls start = start ++ concat ls.
Proof.
  revert start. induction ls as [|l ls IH]; intros start; simpl.
  - by rewrite app_nil_r.
  - unfold builtin_sum in *. simpl. rewrite IH. by rewrite <- app_assoc.
Qed.

(** One guarded [append] of [_get_plugin_event_handlers]. *)
Lemma guarded_append (b : bool) (plugin : Plugin) (x : EventRef)
    (hs : list Handler) :
  (if b && _has_event_handler objs plugin x
   then hs ++ [_get_event_handler objs plugin x] else hs)
  = hs ++ (if b && hasattr objs plugin ("handle" +:+ name x)
           then [getattr objs plugin ("handle" +:+ name x) PyNone] else []).
Proof.
  unfold _has_event_handler, _get_event_handler.
  destruct b, (hasattr objs plugin ("handle" +:+ name x)); simpl;
    by rewrite ?app_nil_r.
Qed.

Lemma _get_plugin_event_handlers_spec (plugin : Plugin) (event : EventObj) :
  _get_plugin_event_handlers objs plugin event
  = plugin_handlers_spec objs plugin event.
Proof.
  unfold _get_plugin_event_handlers, plugin_handlers_spec.
  rewrite <- (andb_true_l (_has_event_handler objs plugin (Obj event))).
  rewrite !guarded_append. simpl.
  rewrite !app_nil_r, <- !app_assoc. reflexivity.
Qed.

Lemma _get_event_handlers_spec (event : EventObj) (plugins : list Plugin) :
  _get_event_handlers objs event plugins = resolved_spec objs event plugins.
Proof.
  unfold _get_event_handlers, resolved_spec.
  rewrite builtin_sum_start. simpl. f_equal.
  apply map_ext. intros p. apply _get_plugin_event_handlers_spec.
Qed.

Lemma getattr_self (plugin : Plugin) (a : string) (q : Plugin) :
  handler_self (getattr objs plugin a PyNone) = Some q → q = plugin.
Proof.
  unfold getattr. destruct (attrs (objs plugin) !! a) as [[f| |]|]; simpl;
    intros H; by inversion H.
Qed.

(** Every resolved handler is an attribute that one of the plugins has. *)
Lemma plugin_handlers_spec_elem (plugin : Plugin) (event : EventObj) (h : Handler) :
  h ∈ plugin_handlers_spec objs plugin event →
  ∃ a, h = getattr objs plugin a PyNone ∧ hasattr objs plugin a = true.
Proof.
  unfold plugin_handlers_spec. rewrite elem_of_app.
  intros [Hin | Hin].
  - apply list_elem_of_In, in_flat_map in Hin. destruct Hin as (c & _ & Hin).
    destruct (isinstance event c); simpl in Hin; [|done].
    destruct (hasattr objs plugin ("handle" +:+ class_name c)) eqn:E;
      simpl in Hin; [|done].
    destruct Hin as [<- | []]. eauto.
  - destruct (hasattr objs plugin ("handle" +:+ ev_name_of event)) eqn:E.
    + apply list_elem_of_singleton in Hin. subst. eauto.
    + by apply not_elem_of_nil in Hin.
Qed.

Lemma _get_event_handlers_elem (event : EventObj) (plugins : list Plugin)
    (h : Handler) :
  h ∈ _get_event_handlers objs event plugins →
  ∃ p a, p ∈ plugins ∧ h = getattr objs p a PyNone ∧ hasattr objs p a = true.
Proof.
  rewrite _get_event_handlers_spec. unfold resolved_spec.
  intros Hin. apply list_elem_of_In, in_concat in Hin.
  destruct Hin as (l & Hl & Hin). apply in_map_iff in Hl.
  destruct Hl as (p & <- & Hp).
  apply list_elem_of_In, plugin_handlers_spec_elem in Hin.
  destruct Hin as (a & -> & Ha). exists p, a. split; [|done].
  by apply list_elem_of_In.
Qed.

Lemma matches_nothing_spec (plugin : Plugin) (event : EventObj) :
  plugin_handlers_spec objs plugin event = [] ↔
  matches_nothing objs plugin event = true.
Proof.
  unfold plugin_handlers_spec, matches_nothing, categories. simpl.
  repeat match goal with
         | |- context [isinstance event ?c && hasattr objs plugin ?a] =>
             destruct (isinstance event c && hasattr objs plugin a)
         end;
    destruct (hasattr objs plugin ("handle" +:+ ev_name_of event));
    simpl; split; intros; done.
Qed.

End Resolution.

Section Loop.

Context {U : Type} (objs : Plugin → PluginObj U).

Lemma extendleft_rev (q new_events : list EventObj) :
  extendleft q new_events = rev new_events ++ q.
Proof.
  revert q. induction new_events as [|e l IH]; intros q; [done|].
  unfold extendleft in *. simpl. rewrite IH. unfold appendleft.
  by rewrite <- app_assoc.
Qed.

Lemma list_remove_Some (p : Plugin) (l l' : list Plugin) :
  list_remove objs p l = Some l' →
  ∃ l1 y l2, l = l1 ++ y :: l2 ∧ py_eq objs y p = true
             ∧ (∀ z, z ∈ l1 → py_eq objs z p = false) ∧ l' = l1 ++ l2.
Proof.
  revert l'. induction l as [|y l IH]; intros l' H; simpl in H; [done|].
  destruct (py_eq objs y p) eqn:Heq.
  - inversion H. subst. exists [], y, l'. split_and!; [done|done| |done].
    intros z Hz. by apply not_elem_of_nil in Hz.
  - destruct (list_remove objs p l) as [l0|] eqn:E; simpl in H; [|done].
    inversion H. subst.
    destruct (IH l0 eq_refl) as (l1 & z & l2 & -> & Hz & Hl1 & ->).
    exists (y :: l1), z, l2. split_and!; [done|done| |done].
    intros w. rewrite elem_of_cons. intros [->|Hw]; [done|by apply Hl1].
Qed.

Lemma list_remove_None (p : Plugin) (l : list Plugin) :
  list_remove objs p l = None ↔ ∀ y, y ∈ l → py_eq objs y p = false.
Proof.
  induction l as [|y l IH]; simpl.
  - split; [|done]. intros _ y Hy. by apply not_elem_of_nil in Hy.
  - destruct (py_eq objs y p) eqn:Heq.
    + split; [done|]. intros H. rewrite (H y) in Heq; [done|left].
    + destruct (list_remove objs p l) eqn:E; simpl.
      * split; [done|]. intros H. exfalso.
        assert (∀ z, z ∈ l → py_eq objs z p = false) as Hl
          by (intros z Hz; apply H; by right).
        apply IH in Hl. done.
      * split; [|done]. intros _ z. rewrite elem_of_cons.
        intros [->|Hz]; [done|]. by apply IH.
Qed.

Lemma list_remove_py_in (p : Plugin) (l : list Plugin) :
  list_remove objs p l = None ↔ py_in objs p l = false.
Proof.
  rewrite list_remove_None. unfold py_in. induction l as [|y l IH]; simpl.
  - split; [done|]. intros _ y Hy. by apply not_elem_of_nil in Hy.
  - rewrite orb_false_iff, <- IH. split.
    + intros H. split; [apply H; left|]. intros z Hz. apply H. by right.
    + intros [Hy Hl] z. rewrite elem_of_cons. intros [->|Hz]; [done|by apply Hl].
Qed.

(** With the default [==], being equal is being the same object. *)
Lemma py_eq_default (y p : Plugin) :
  plugin_eq (objs y) p = false → py_eq objs y p = bool_decide (y = p).
Proof. unfold py_eq. intros ->. by rewrite orb_false_r. Qed.

Lemma py_eq_refl (p : Plugin) : py_eq objs p p = true.
Proof. unfold py_eq. by rewrite bool_decide_eq_true_2. Qed.

(** For plugins that are equal to no other object, [p in l] is to say that
    [p] is listed. *)
Lemma py_in_default (p : Plugin) (l : list Plugin) :
  (∀ y, y ∈ l → plugin_eq (objs y) p = false) →
  py_in objs p l = true ↔ p ∈ l.
Proof.
  intros Hdef. unfold py_in. rewrite existsb_exists. split.
  - intros (y & Hy & Heq). apply list_elem_of_In in Hy.
    rewrite (py_eq_default y p (Hdef y Hy)) in Heq.
    apply bool_decide_eq_true in Heq. by subst y.
  - intros Hp. exists p. split; [by apply list_elem_of_In|apply py_eq_refl].
Qed.

Lemma list_remove_subseteq (p : Plugin) (l l' : list Plugin) :
  list_remove objs p l = Some l' → ∀ q, q ∈ l' → q ∈ l.
Proof.
  intros H q Hq. apply list_remove_Some in H as (l1 & y & l2 & -> & _ & _ & ->).
  rewrite elem_of_app in Hq. rewrite elem_of_app, elem_of_cons. tauto.
Qed.

(** An entry that is not [==] to the plugin stays. *)
Lemma list_remove_other (p : Plugin) (l l' : list Plugin) :
  list_remove objs p l = Some l' →
  ∀ q, py_eq objs q p = false → q ∈ l → q ∈ l'.
Proof.
  intros H q Hne Hq.
  apply list_remove_Some in H as (l1 & y & l2 & -> & Hy & _ & ->).
  rewrite elem_of_app, elem_of_cons in Hq. rewrite elem_of_app.
  destruct Hq as [?|[->|?]]; [tauto| |tauto]. by rewrite Hy in Hne.
Qed.

(** The [for] loop logs one call per handler, in order, up to the one that
    raised; when it returns, all were called and the batch was appended. *)
Lemma for_event_handler_log (hs : list Handler) (event : EventObj)
    (new_events : list EventObj) (rp : Replay U) (t : list Obs) :
  match for_event_handler objs hs event new_events rp t with
  | inl (_, _, t') =>
      ∃ hs1 hs2, hs = hs1 ++ hs2 ∧ t' = t ++ invocations event hs1
  | inr (new_events', _, t') =>
      t' = t ++ invocations event hs ∧ ∃ batch, new_events' = new_events ++ batch
  end.
Proof.
  revert new_events rp t. induction hs as [|h hs IH]; intros ne rp t; simpl.
  - split; [by rewrite app_nil_r|]. exists []. by rewrite app_nil_r.
  - assert (callable objs h = false →
            ∃ rp', call objs h event rp = inl (TypeError, rp')) as Hnot.
    { unfold callable, call. destruct h as [p a| |p a]; [|by eauto|by eauto].
      destruct (attrs (objs p) !! a) as [[f| |]|]; [done|by eauto..]. }
    destruct (callable objs h) eqn:Hc.
    + destruct (call objs h event rp) as [[x rp']|[r rp']].
      * exists [h], hs. done.
      * specialize (IH (ne ++ default [] r) rp' (t ++ [Invoke h event])).
        destruct (for_event_handler objs hs event _ rp' _)
          as [[[x rp''] t']|[[ne' rp''] t']].
        -- destruct IH as (hs1 & hs2 & -> & ->). exists (h :: hs1), hs2.
           split; [done|]. by rewrite <- app_assoc.
        -- destruct IH as (-> & batch & ->). split; [by rewrite <- app_assoc|].
           exists (default [] r ++ batch). by rewrite app_assoc.
    + destruct (Hnot eq_refl) as [rp' ->]. exists [], (h :: hs).
      by rewrite app_nil_r.
Qed.

(** What the body does with an event that is not a plugin exit. *)
Lemma loop_body_dispatch (event : EventObj) (s : RunState U) :
  name (Obj event) ≠ "PluginExit" →
  ∃ hs1 hs2,
    handlers_for objs event s = hs1 ++ hs2 ∧
    heap (result_state (loop_body objs event s)) = heap s ∧
    plugins (result_state (loop_body objs event s)) = plugins s ∧
    handlers (result_state (loop_body objs event s))
      = <[name (Obj event) := handlers_for objs event s]> (handlers s) ∧
    trace (result_state (loop_body objs event s))
      = trace s ++ Dispatch event (handlers_for objs event s)
                :: invocations event hs1 ∧
    match loop_body objs event s with
    | Normal s' =>
        hs2 = [] ∧ ∃ batch, event_queue s' = rev batch ++ event_queue s
    | Raised _ s' => event_queue s' = event_queue s
    end.
Proof.
  intros Hname. unfold loop_body, handlers_for.
  destruct (decide (name (Obj event) = "PluginExit")) as [|_]; [done|].
  assert (Hcache : ∀ hs, handlers s !! name (Obj event) = Some hs →
                         handlers s = <[name (Obj event) := hs]> (handlers s))
    by (intros hs E; by rewrite insert_id).
  destruct (handlers s !! name (Obj event)) as [hs|];
    [specialize (Hcache hs eq_refl)
    |set (hs := _get_event_handlers objs event (active s)); clear Hcache];
    (pose proof (for_event_handler_log hs event [] (replay s)
                   (trace s ++ [Dispatch event hs])) as Hlog;
     destruct (for_event_handler objs hs event [] (replay s) _)
       as [[[x rp'] t']|[[ne' rp'] t']]; simpl;
     [ destruct Hlog as (hs1 & hs2 & Hhs & ->); exists hs1, hs2;
       split_and!; try done; by rewrite <- app_assoc
     | destruct Hlog as (-> & batch & ->); exists hs, [];
       split_and!; try done;
       [by rewrite app_nil_r|by rewrite <- app_assoc|];
       exists batch; apply extendleft_rev ]).
Qed.

(** What the body does with a plugin exit. *)
Lemma loop_body_exit (p : Plugin) (c : Z) (d : gmap string string)
    (s : RunState U) :
  loop_body objs (PluginExit p c d) s
  = match list_remove objs p (active s) with
    | None => Raised ValueError s
    | Some l =>
        match plugin_name (objs p) with
        | None =>
            Raised AttributeError
              {| heap := <[plugins s := l]> (heap s);
                 handlers := ∅;
                 plugins := plugins s;
                 replay := replay s;
                 event_queue := event_queue s;
                 trace := trace s ++ [Exit p] |}
        | Some n =>
            Normal {| heap := <[plugins s := l]> (heap s);
                      handlers := ∅;
                      plugins := plugins s;
                      replay :=
                        {| replay_events := replay_events (replay s);
                           replay_plugins :=
                             <[n := (c, d)]> (replay_plugins (replay s));
                           replay_user := replay_user (replay s) |};
                      event_queue := event_queue s;
                      trace := trace s ++ [Exit p] |}
        end
    end.
Proof. reflexivity. Qed.

(** The cases of the loop body: an exit that took a plugin out (and then
    recorded it, or found it without a name), a body that raised at once, or
    an event to dispatch. *)
Lemma loop_body_cases (event : EventObj) (s : RunState U) :
  (∃ p c d l, event = PluginExit p c d ∧ list_remove objs p (active s) = Some l ∧
     ∃ s', result_state (loop_body objs event s) = s' ∧
           active s' = l ∧ plugins s' = plugins s ∧
           heap s' = <[plugins s := l]> (heap s) ∧ handlers s' = ∅ ∧
           event_queue s' = event_queue s ∧ trace s' = trace s ++ [Exit p] ∧
           ((∃ n, plugin_name (objs p) = Some n
                  ∧ loop_body objs event s = Normal s'
                  ∧ replay_events (replay s') = replay_events (replay s)
                  ∧ replay_user (replay s') = replay_user (replay s)
                  ∧ replay_plugins (replay s')
                    = <[n := (c, d)]> (replay_plugins (replay s)))
            ∨ (plugin_name (objs p) = None
               ∧ loop_body objs event s = Raised AttributeError s'
               ∧ replay s' = replay s)))
  ∨ (∃ x, loop_body objs event s = Raised x s ∧ name (Obj event) = "PluginExit")
  ∨ name (Obj event) ≠ "PluginExit".
Proof.
  destruct (decide (name (Obj event) = "PluginExit")) as [Hn|Hn]; [|by right; right].
  destruct event as [n b pl|p c d].
  - right; left. exists AttributeError. split; [|done].
    unfold loop_body. by rewrite decide_True.
  - rewrite loop_body_exit.
    destruct (list_remove objs p (active s)) as [l|] eqn:E.
    + left. exists p, c, d, l. split_and!; try done.
      destruct (plugin_name (objs p)) as [n|] eqn:Hname.
      * eexists. split; [done|]. simpl. split_and!; try done.
        -- unfold active. simpl. by rewrite lookup_total_insert_eq.
        -- left. by exists n.
      * eexists. split; [done|]. simpl. split_and!; try done.
        -- unfold active. simpl. by rewrite lookup_total_insert_eq.
        -- by right.
    + right; left. by exists ValueError.
Qed.

(** Where an element of a list extended at its end can be. *)
Lemma app_eq_split {A} (t ext t1 t2 : list A) (x : A) :
  t ++ ext = t1 ++ x :: t2 →
  (∃ t2', t = t1 ++ x :: t2' ∧ t2 = t2' ++ ext)
  ∨ (∃ l, t1 = t ++ l ∧ ext = l ++ x :: t2).
Proof.
  revert t. induction t1 as [|y t1 IH]; intros t H.
  - destruct t as [|z t]; simpl in *.
    + right. by exists [].
    + inversion H; subst. left. by exists t.
  - destruct t as [|z t]; simpl in *.
    + right. by exists (y :: t1).
    + inversion H; subst. destruct (IH t H2) as [(t2' & -> & ->)|(l & -> & ->)].
      * left. by exists t2'.
      * right. by exists l.
Qed.

(** The log entries of one dispatch step hold no exit, and their only
    [Dispatch] is the first. *)
Lemma dispatch_ext_split (event : EventObj) (hs hs1 : list Handler)
    (l t2 : list Obs) (x : Obs) :
  Dispatch event hs :: invocations event hs1 = l ++ x :: t2 →
  (l = [] ∧ x = Dispatch event hs ∧ t2 = invocations event hs1)
  ∨ (∃ h, x = Invoke h event ∧ h ∈ hs1).
Proof.
  destruct l as [|y l]; simpl; intros H; inversion H; subst; [by left|].
  right. assert (x ∈ invocations event hs1) as Hin.
  { rewrite H2. rewrite elem_of_app, elem_of_cons. tauto. }
  unfold invocations in Hin. apply list_elem_of_fmap in Hin.
  destruct Hin as (h & -> & Hh). eauto.
Qed.

Lemma exit_in_dispatch_ext (event : EventObj) (hs hs1 : list Handler) (p : Plugin) :
  Exit p ∉ Dispatch event hs :: invocations event hs1.
Proof.
  intros Hin. apply list_elem_of_split in Hin as (l & t2 & H).
  apply dispatch_ext_split in H as [(_ & ? & _)|(h & ? & _)]; done.
Qed.

Lemma handlers_for_sound (event : EventObj) (s : RunState U) (h : Handler)
    (q : Plugin) :
  cache_sound s → h ∈ handlers_for objs event s → handler_self h = Some q →
  q ∈ active s.
Proof.
  intros Hc Hin Hq. unfold handlers_for in Hin.
  destruct (handlers s !! name (Obj event)) as [hs|] eqn:E.
  - by apply (Hc _ _ _ _ E Hin).
  - apply _get_event_handlers_elem in Hin as (p & a & Hp & -> & _).
    apply getattr_self in Hq. by subst.
Qed.

Lemma occurrences_app (p : Plugin) (l1 l2 : list Plugin) :
  occurrences p (l1 ++ l2) = occurrences p l1 + occurrences p l2.
Proof. unfold occurrences. by rewrite filter_app, length_app. Qed.

Lemma occurrences_cons_eq (p : Plugin) (l : list Plugin) :
  occurrences p (p :: l) = S (occurrences p l).
Proof. unfold occurrences. by rewrite filter_cons_True. Qed.

Lemma occurrences_zero (p : Plugin) (l : list Plugin) :
  occurrences p l = 0 → p ∉ l.
Proof.
  unfold occurrences. intros H Hin.
  assert (p ∈ filter (λ q, q = p) l) as Hf by (by apply list_elem_of_filter).
  destruct (filter (λ q, q = p) l); [by apply not_elem_of_nil in Hf|done].
Qed.

Lemma list_remove_occurrences (p q : Plugin) (l l' : list Plugin) :
  list_remove objs q l = Some l' → occurrences p l' ≤ occurrences p l.
Proof.
  intros H. apply list_remove_Some in H as (l1 & y & l2 & -> & _ & _ & ->).
  rewrite !occurrences_app. unfold occurrences at 4.
  destruct (decide (y = p)) as [->|Hne].
  - rewrite filter_cons_True by done. simpl. fold (occurrences p l2). lia.
  - rewrite filter_cons_False by done. fold (occurrences p l2). lia.
Qed.

Lemma exit_inv_step (p : Plugin) (event : EventObj) (s : RunState U) :
  (∀ y, y ≠ p → plugin_eq (objs y) p = false) →
  exit_inv p s → exit_inv p (result_state (loop_body objs event s)).
Proof.
  intros Hsolo (Hocc & Hcache & Hgone & Hsilent).
  destruct (loop_body_cases event s)
    as [(q & c & d & l & -> & Hrm & s' & -> & Hact & _ & _ & Hh & _ & Htr & _)
       |[(x & -> & _)|Hname]]; simpl.
  - (* a plugin exits *)
    unfold exit_inv. rewrite Hact, Htr. split_and!.
    + pose proof (list_remove_occurrences p q _ _ Hrm). lia.
    + intros n hs h r Hl. rewrite Hh in Hl. by rewrite lookup_empty in Hl.
    + rewrite elem_of_app, list_elem_of_singleton. intros [Hin|Heq] Hl.
      * apply (Hgone Hin). by eapply list_remove_subseteq.
      * inversion Heq; subst q.
        apply list_remove_Some in Hrm as (l1 & y & l2 & Ha & Hy & Hl1 & ->).
        assert (y = p) as ->.
        { destruct (decide (y = p)) as [|Hne]; [done|].
          rewrite (py_eq_default _ _ (Hsolo y Hne)) in Hy.
          by apply bool_decide_eq_true in Hy. }
        rewrite Ha, occurrences_app, occurrences_cons_eq in Hocc.
        apply elem_of_app in Hl as [Hl|Hl].
        -- apply Hl1 in Hl. by rewrite py_eq_refl in Hl.
        -- apply (occurrences_zero p l2); [lia|done].
    + intros t1 t2 h e Ht Hin.
      apply app_eq_split in Ht as [(t2' & Ht & ->)|(l0 & -> & Hl0)].
      * apply elem_of_app in Hin as [Hin|Hin]; [by eapply Hsilent|].
        by apply list_elem_of_singleton in Hin.
      * destruct l0 as [|? [|? ?]]; simpl in Hl0; inversion Hl0; subst.
        by apply not_elem_of_nil in Hin.
  - done.
  - (* an event is dispatched *)
    destruct (loop_body_dispatch event s Hname)
      as (hs1 & hs2 & Hhs & Hheap & Hpl & Hh & Htr & _).
    set (s' := result_state (loop_body objs event s)) in *.
    assert (active s' = active s) as Hact by (unfold active; by rewrite Hheap, Hpl).
    unfold exit_inv. rewrite Hact, Htr. split_and!.
    + done.
    + intros n hs h r Hl Hin Hr. rewrite Hact. rewrite Hh in Hl.
      destruct (decide (name (Obj event) = n)) as [<-|Hne].
      * rewrite lookup_insert_eq in Hl. inversion Hl; subst hs.
        by eapply handlers_for_sound.
      * rewrite lookup_insert_ne in Hl by done. by eapply Hcache.
    + rewrite elem_of_app. intros [Hin|Hin]; [by apply Hgone|].
      by apply exit_in_dispatch_ext in Hin.
    + intros t1 t2 h e Ht Hin.
      apply app_eq_split in Ht as [(t2' & Ht & ->)|(l0 & -> & Hl0)].
      * apply elem_of_app in Hin as [Hin|Hin]; [by eapply Hsilent|].
        assert (Exit p ∈ trace s) as Hex.
        { rewrite Ht, elem_of_app, elem_of_cons. tauto. }
        apply elem_of_cons in Hin as [Hin|Hin]; [done|].
        unfold invocations in Hin. apply list_elem_of_fmap in Hin.
        destruct Hin as (h' & Heq & Hh'). inversion Heq; subst h' e.
        intros Hself. apply (Hgone Hex).
        apply (handlers_for_sound event s h p Hcache); [|done].
        rewrite Hhs, elem_of_app. by left.
      * apply dispatch_ext_split in Hl0 as [(_ & ? & _)|(h' & ? & _)]; done.
Qed.

Lemma cache_inv_step (event : EventObj) (s : RunState U) :
  cache_recent s ∧ same_name_same_handlers (trace s) →
  cache_recent (result_state (loop_body objs event s))
  ∧ same_name_same_handlers (trace (result_state (loop_body objs event s))).
Proof.
  intros (Hrecent & Hsame).
  destruct (loop_body_cases event s)
    as [(q & c & d & l & -> & Hrm & s' & -> & _ & _ & _ & Hh & _ & Htr & _)
       |[(x & -> & _)|Hname]]; simpl.
  - (* a plugin exits: nothing is recent any more *)
    split.
    + intros t1 e hs mid Ht Hmid. rewrite Htr in Ht.
      apply app_eq_split in Ht as [(t2' & _ & ->)|(l0 & _ & Hl0)].
      * rewrite forallb_app in Hmid. simpl in Hmid.
        by rewrite andb_false_r in Hmid.
      * destruct l0 as [|? [|? ?]]; simpl in Hl0; inversion Hl0.
    + intros t1 e1 hs1 mid e2 hs2 t3 Ht Hn Hmid. rewrite Htr in Ht.
      change (t1 ++ Dispatch e1 hs1 :: mid ++ Dispatch e2 hs2 :: t3)
        with (t1 ++ (Dispatch e1 hs1 :: mid) ++ Dispatch e2 hs2 :: t3) in Ht.
      rewrite app_assoc in Ht.
      apply app_eq_split in Ht as [(t2' & Ht & _)|(l0 & _ & Hl0)].
      * rewrite <- app_assoc in Ht. by eapply Hsame.
      * destruct l0 as [|? [|? ?]]; simpl in Hl0; inversion Hl0.
  - done.
  - (* an event is dispatched *)
    destruct (loop_body_dispatch event s Hname)
      as (hs1' & hs2' & _ & _ & _ & Hh & Htr & _).
    set (s' := result_state (loop_body objs event s)) in *.
    split.
    + intros t1 e hs mid Ht Hmid. rewrite Htr in Ht. rewrite Hh.
      apply app_eq_split in Ht as [(t2' & Ht & ->)|(l0 & _ & Hl0)].
      * rewrite forallb_app in Hmid. apply andb_true_iff in Hmid as [Hmid _].
        pose proof (Hrecent _ _ _ _ Ht Hmid) as Hl.
        destruct (decide (name (Obj event) = name (Obj e))) as [Heq|Hne].
        -- rewrite Heq, lookup_insert_eq. unfold handlers_for.
           by rewrite Heq, Hl.
        -- by rewrite lookup_insert_ne.
      * apply dispatch_ext_split in Hl0 as [(_ & Heq & _)|(h' & ? & _)]; [|done].
        inversion Heq; subst. by rewrite lookup_insert_eq.
    + intros t1 e1 hs1 mid e2 hs2 t3 Ht Hn Hmid. rewrite Htr in Ht.
      change (t1 ++ Dispatch e1 hs1 :: mid ++ Dispatch e2 hs2 :: t3)
        with (t1 ++ (Dispatch e1 hs1 :: mid) ++ Dispatch e2 hs2 :: t3) in Ht.
      rewrite app_assoc in Ht.
      apply app_eq_split in Ht as [(t2' & Ht & _)|(l0 & Ht & Hl0)].
      * rewrite <- app_assoc in Ht. by eapply Hsame.
      * apply dispatch_ext_split in Hl0 as [(-> & Heq & _)|(h' & ? & _)]; [|done].
        inversion Heq; subst e2 hs2. rewrite app_nil_r in Ht.
        symmetry in Ht. pose proof (Hrecent _ _ _ _ Ht Hmid) as Hl.
        unfold handlers_for. by rewrite <- Hn, Hl.
Qed.

(** The body only writes the list [plugins] refers to, and only logs. *)
Lemma loop_body_frame (event : EventObj) (s : RunState U) :
  plugins (result_state (loop_body objs event s)) = plugins s ∧
  (∀ l, l ≠ plugins s →
        heap (result_state (loop_body objs event s)) !! l = heap s !! l) ∧
  (∃ ext, trace (result_state (loop_body objs event s)) = trace s ++ ext) ∧
  (∀ q, q ∈ active (result_state (loop_body objs event s)) → q ∈ active s).
Proof.
  destruct (loop_body_cases event s)
    as [(q & c & d & l & -> & Hrm & s' & -> & Hact & Hpl & Hheap & _ & _ & Htr & _)
       |[(x & -> & _)|Hname]]; simpl.
  - split_and!; [done| |by eauto|].
    + intros l0 Hl0. by rewrite Hheap, lookup_insert_ne.
    + rewrite Hact. by eapply list_remove_subseteq.
  - split_and!; [done|done| |done]. exists []. by rewrite app_nil_r.
  - destruct (loop_body_dispatch event s Hname)
      as (hs1 & hs2 & _ & Hheap & Hpl & _ & Htr & _).
    split_and!; [done|by rewrite Hheap|by eauto|].
    unfold active. by rewrite Hheap, Hpl.
Qed.

(** A registered plugin stays active as long as no exit names a plugin it
    is equal to. *)
Lemma survivors_step (registry : list Plugin) (event : EventObj) (s : RunState U) :
  (∀ p, p ∈ registry →
        (∀ q, Exit q ∈ trace s → py_eq objs p q = false) → p ∈ active s) →
  ∀ p, p ∈ registry →
       (∀ q, Exit q ∈ trace (result_state (loop_body objs event s)) →
             py_eq objs p q = false) →
       p ∈ active (result_state (loop_body objs event s)).
Proof.
  intros Hinv p Hp.
  destruct (loop_body_cases event s)
    as [(q & c & d & l & -> & Hrm & s' & -> & Hact & _ & _ & _ & _ & Htr & _)
       |[(x & -> & _)|Hname]]; simpl.
  - rewrite Hact, Htr. intros Hni.
    eapply list_remove_other; [done| |apply Hinv; [done|]].
    + apply Hni. rewrite elem_of_app, list_elem_of_singleton. by right.
    + intros r Hr. apply Hni. rewrite elem_of_app. by left.
  - by apply Hinv.
  - destruct (loop_body_dispatch event s Hname)
      as (hs1 & hs2 & _ & Hheap & Hpl & _ & Htr & _).
    unfold active. rewrite Hheap, Hpl, Htr. intros Hni.
    apply Hinv; [done|]. intros r Hr. apply Hni. rewrite elem_of_app. by left.
Qed.

(** An invariant of the loop body, kept also by the state an exception
    leaves behind, is an invariant of every prefix of the loop. *)
Lemma while_loop_invariant (I : RunState U → Prop) :
  (∀ event rest s,
     I s → event_queue s = event :: rest →
     I (result_state (loop_body objs event (popleft s rest)))) →
  ∀ fuel s, I s → I (state_of (while_loop objs fuel s)).
Proof.
  intros Hstep fuel. induction fuel as [|n IH]; intros s Hs; simpl.
  - destruct (event_queue s); done.
  - destruct (event_queue s) as [|e rest] eqn:Hq; [done|].
    specialize (Hstep e rest s Hs Hq).
    destruct (loop_body objs e (popleft s rest)) as [s'|x s']; simpl in *.
    + by apply IH.
    + done.
Qed.

(** The same for the states the loop passes through normally. *)
Lemma while_loop_finished_invariant (I : RunState U → Prop) :
  (∀ event rest s s',
     I s → event_queue s = event :: rest →
     loop_body objs event (popleft s rest) = Normal s' → I s') →
  ∀ fuel s s', I s → while_loop objs fuel s = Finished s' →
               I s' ∧ event_queue s' = [].
Proof.
  intros Hstep fuel. induction fuel as [|n IH]; intros s s' Hs; simpl.
  - destruct (event_queue s) eqn:Hq; [|done]. by intros [= <-].
  - destruct (event_queue s) as [|e rest] eqn:Hq; [by intros [= <-]|].
    destruct (loop_body objs e (popleft s rest)) as [s1|x s1] eqn:Hb; [|done].
    apply IH. by eapply Hstep.
Qed.


Lemma same_locals_step (event : EventObj) (s1 s2 : RunState U) :
  same_locals s1 s2 →
  match loop_body objs event s1, loop_body objs event s2 with
  | Normal s1', Normal s2' => same_locals s1' s2'
  | Raised x1 s1', Raised x2 s2' => x1 = x2 ∧ same_locals s1' s2'
  | _, _ => False
  end.
Proof.
  intros (Ha & Hh & Hr & Hq & Ht). unfold loop_body.
  destruct (decide (name (Obj event) = "PluginExit")) as [_|_].
  - destruct event as [n b pl|p c d]; [done|]. rewrite <- Ha.
    destruct (list_remove objs p (active s1)) as [l|]; [|done].
    destruct (plugin_name (objs p)) as [n|];
      unfold same_locals, active; simpl;
      by rewrite !lookup_total_insert_eq, Hr, Hq, Ht.
  - rewrite <- Hh, <- Ha, <- Hr, <- Ht, <- Hq.
    destruct (handlers s1 !! name (Obj event)) as [hs|];
      (destruct (for_event_handler objs _ event [] (replay s1) _)
         as [[[x rp'] t']|[[ne' rp'] t']];
       unfold same_locals, active; simpl; unfold active in Ha; by rewrite Ha).
Qed.

Lemma same_locals_while_loop (fuel : nat) (s1 s2 : RunState U) :
  same_locals s1 s2 →
  same_locals (state_of (while_loop objs fuel s1))
              (state_of (while_loop objs fuel s2))
  ∧ (∀ s1', while_loop objs fuel s1 = Finished s1' →
            ∃ s2', while_loop objs fuel s2 = Finished s2').
Proof.
  revert s1 s2. induction fuel as [|n IH]; intros s1 s2 Hs; simpl.
  - pose proof Hs as (_ & _ & _ & Hq & _). rewrite <- Hq.
    destruct (event_queue s1); split; eauto; done.
  - pose proof Hs as (_ & _ & _ & Hq & _). rewrite <- Hq.
    destruct (event_queue s1) as [|e rest]; [split; eauto|].
    assert (same_locals (popleft s1 rest) (popleft s2 rest)) as Hp.
    { destruct Hs as (? & ? & ? & ? & ?). by split_and!. }
    pose proof (same_locals_step e _ _ Hp) as Hstep.
    destruct (loop_body objs e (popleft s1 rest)) as [s1'|x1 s1'],
             (loop_body objs e (popleft s2 rest)) as [s2'|x2 s2']; try done.
    + by apply IH.
    + destruct Hstep as [_ Hstep]. split; [done|]. done.
Qed.


(** The final loop, when it comes to its end, has recorded the default
    outcome for each plugin it visited, and changed nothing else. *)
Lemma record_success_lookup (ps : list Plugin) (rp rp' : Replay U) (p : Plugin) :
  record_success objs rp ps = inr rp' →
  (p ∈ ps ∨ ∃ n, plugin_name (objs p) = Some n
                 ∧ replay_plugins rp !! n = Some (0%Z, ∅)) →
  ∃ n, plugin_name (objs p) = Some n
       ∧ replay_plugins rp' !! n = Some (0%Z, ∅).
Proof.
  revert rp. induction ps as [|q ps IH]; intros rp Hrec H; simpl in Hrec.
  - inversion Hrec; subst. destruct H as [H|H]; [by apply not_elem_of_nil in H|done].
  - destruct (plugin_name (objs q)) as [nq|] eqn:Hq; [|done].
    apply (IH _ Hrec). rewrite elem_of_cons in H. simpl.
    destruct H as [[->|H]|(n & Hn & Hl)]; [right|by left|right].
    + exists nq. by rewrite lookup_insert_eq.
    + exists n. split; [done|].
      destruct (decide (nq = n)) as [->|Hne].
      * by rewrite lookup_insert_eq.
      * by rewrite lookup_insert_ne.
Qed.

Lemma record_success_frame (ps : list Plugin) (rp : Replay U) :
  match record_success objs rp ps with
  | inl (_, rp') | inr rp' =>
      replay_events rp' = replay_events rp ∧ replay_user rp' = replay_user rp
  end.
Proof.
  revert rp. induction ps as [|q ps IH]; intros rp; simpl; [done|].
  destruct (plugin_name (objs q)) as [nq|]; [|done].
  specialize (IH {| replay_events := replay_events rp;
                    replay_plugins := <[nq := (0%Z, ∅)]> (replay_plugins rp);
                    replay_user := replay_user rp |}).
  by destruct (record_success objs _ ps) as [[x rp']|rp'].
Qed.

(** The final loop comes to its end exactly when every plugin has a name. *)
Lemma record_success_named (ps : list Plugin) (rp : Replay U) :
  (∀ p, p ∈ ps → is_Some (plugin_name (objs p))) ↔
  ∃ rp', record_success objs rp ps = inr rp'.
Proof.
  revert rp. induction ps as [|q ps IH]; intros rp; simpl.
  - split; [by eauto|]. intros _ p Hp. by apply not_elem_of_nil in Hp.
  - destruct (plugin_name (objs q)) as [nq|] eqn:Hq.
    + rewrite <- IH. split.
      * intros H p Hp. apply H. by right.
      * intros H p. rewrite elem_of_cons. intros [->|Hp]; [by rewrite Hq|by apply H].
    + split.
      * intros H. destruct (H q) as [n Hn]; [left|]. by rewrite Hq in Hn.
      * by intros [rp' ?].
Qed.

(** ** The run as a whole *)

Lemma run_init_active (h : gmap nat (list Plugin)) (self : GameEngine)
    (rp : Replay U) :
  active (run_init h self rp) = h !!! _plugins self.
Proof. unfold active, run_init. simpl. by rewrite lookup_total_insert_eq. Qed.

Lemma run_state (fuel : nat) (h : gmap nat (list Plugin)) (self : GameEngine)
    (rp : Replay U) :
  let s := state_of (run objs fuel h self rp) in
  let s0 := state_of (while_loop objs fuel (run_init h self rp)) in
  heap s = heap s0 ∧ plugins s = plugins s0 ∧ handlers s = handlers s0 ∧
  event_queue s = event_queue s0 ∧ trace s = trace s0.
Proof.
  unfold run. destruct (while_loop objs fuel (run_init h self rp)) as [s0| |];
    [|done|done].
  unfold record_all. simpl.
  by destruct (record_success objs (replay s0) (active s0)) as [[x rp']|rp'].
Qed.

Lemma run_Finished (fuel : nat) (h : gmap nat (list Plugin)) (self : GameEngine)
    (rp : Replay U) (s : RunState U) :
  run objs fuel h self rp = Finished s →
  ∃ s0 rp', while_loop objs fuel (run_init h self rp) = Finished s0
            ∧ record_success objs (replay s0) (active s0) = inr rp'
            ∧ s = with_replay s0 rp'.
Proof.
  unfold run. destruct (while_loop objs fuel (run_init h self rp)) as [s0| |];
    [|done|done].
  unfold record_all.
  destruct (record_success objs (replay s0) (active s0)) as [[x rp']|rp'] eqn:E;
    [done|].
  intros [= <-]. eauto.
Qed.


Lemma same_locals_sym (s1 s2 : RunState U) :
  same_locals s1 s2 → same_locals s2 s1.
Proof. intros (? & ? & ? & ? & ?). by split_and!. Qed.

(** A run depends on the heap only through the contents of the registry. *)
Lemma run_same_locals (fuel : nat) (h1 h2 : gmap nat (list Plugin))
    (self : GameEngine) (rp : Replay U) :
  h1 !!! _plugins self = h2 !!! _plugins self →
  same_locals (state_of (run objs fuel h1 self rp))
              (state_of (run objs fuel h2 self rp)).
Proof.
  intros Hreg.
  assert (same_locals (run_init h1 self rp) (run_init h2 self rp)) as Hinit.
  { unfold same_locals. rewrite !run_init_active. by split_and!. }
  destruct (same_locals_while_loop fuel _ _ Hinit) as [Hs H12].
  destruct (same_locals_while_loop fuel _ _ (same_locals_sym _ _ Hinit))
    as [_ H21].
  unfold run.
  destruct (while_loop objs fuel (run_init h1 self rp)) as [s1|x1 s1|s1] eqn:E1,
           (while_loop objs fuel (run_init h2 self rp)) as [s2|x2 s2|s2] eqn:E2;
    simpl in *; try done.
  - destruct Hs as (Ha & Hh & Hr & Hq & Ht).
    unfold record_all. rewrite <- Ha, <- Hr.
    destruct (record_success objs (replay s1) (active s1)) as [[x rp']|rp'];
      unfold same_locals, with_replay, active in *; simpl; by rewrite Ha.
  - by destruct (H12 _ eq_refl).
  - by destruct (H12 _ eq_refl).
  - by destruct (H21 _ eq_refl).
  - by destruct (H21 _ eq_refl).
Qed.

Lemma hasattr_dom (plugin : Plugin) (a : string) :
  hasattr objs plugin a = bool_decide (a ∈ dom (attrs (objs plugin))).
Proof. unfold hasattr. apply bool_decide_ext. by rewrite elem_of_dom. Qed.

Lemma class_handler_inj (c1 c2 : Category) :
  "handle" +:+ class_name c1 = "handle" +:+ class_name c2 → c1 = c2.
Proof. destruct c1, c2; simpl; intros H; done || discriminate H. Qed.

(** The dispatch branch of the loop body, in terms of the [for] loop. *)
Lemma loop_body_dispatch_eq (event : EventObj) (s : RunState U) :
  name (Obj event) ≠ "PluginExit" →
  loop_body objs event s
  = match for_event_handler objs (handlers_for objs event s) event []
            (replay s)
            (trace s ++ [Dispatch event (handlers_for objs event s)]) with
    | inl (x, rp', t') =>
        Raised x {| heap := heap s;
                    handlers := <[name (Obj event) := handlers_for objs event s]>
                                  (handlers s);
                    plugins := plugins s; replay := rp';
                    event_queue := event_queue s; trace := t' |}
    | inr (new_events, rp', t') =>
        Normal {| heap := heap s;
                  handlers := <[name (Obj event) := handlers_for objs event s]>
                                (handlers s);
                  plugins := plugins s; replay := rp';
                  event_queue := extendleft (event_queue s) new_events;
                  trace := t' |}
    end.
Proof.
  intros Hname. unfold loop_body, handlers_for.
  rewrite decide_False by done.
  destruct (handlers s !! name (Obj event)) as [hs|] eqn:E; [|done].
  by rewrite (insert_id _ _ _ E).
Qed.

Lemma callable_bound (h : Handler) :
  callable objs h = true →
  ∃ p a f, h = BoundMethod p a ∧ attrs (objs p) !! a = Some (Function f).
Proof.
  unfold callable. destruct h as [p a| |p a]; [|done|done].
  destruct (attrs (objs p) !! a) as [[f| |]|] eqn:E; try done. eauto.
Qed.

Lemma not_callable_call (h : Handler) (event : EventObj) (rp : Replay U) :
  callable objs h = false → call objs h event rp = inl (TypeError, rp).
Proof.
  unfold callable, call. destruct h as [p a| |p a]; [|done|done].
  by destruct (attrs (objs p) !! a) as [[f| |]|].
Qed.

(** The [for] loop comes to its end only if every handler is callable. *)
Lemma for_event_handler_inr_callable (hs : list Handler) (event : EventObj)
    (new_events : list EventObj) (rp : Replay U) (t : list Obs) :
  match for_event_handler objs hs event new_events rp t with
  | inl _ => True
  | inr _ => ∀ h, h ∈ hs → callable objs h = true
  end.
Proof.
  revert new_events rp t. induction hs as [|h hs IH]; intros ne rp t; simpl.
  - intros h Hh. by apply not_elem_of_nil in Hh.
  - destruct (callable objs h) eqn:Hc.
    + destruct (call objs h event rp) as [[x rp']|[r rp']]; [done|].
      specialize (IH (ne ++ default [] r) rp' (t ++ [Invoke h event])).
      destruct (for_event_handler objs hs event _ rp' _)
        as [[[x rp''] t']|[[ne' rp''] t']]; [done|].
      intros h'. rewrite elem_of_cons. intros [->|Hh']; [done|by apply IH].
    + by rewrite (not_callable_call h event rp Hc).
Qed.

End Loop.

(** * Properties of the engine *)

Section Properties.

Context {U : Type} (objs : Plugin → PluginObj U).

(** C2. For every event and every list of active plugins, the resolved
    handler sequence is the concatenation, in plugin order, of each
    plugin's own list: the [handle<Category>] methods it exposes for the
    categories of the event, in the fixed precedence order, followed by its
    [handle<ConcreteEventName>] method if it exposes one; a plugin matching
    nothing contributes no handler. *)
Theorem C2_resolution_is_plugin_major (event : EventObj) (plugins : list Plugin) :
  _get_event_handlers objs event plugins = resolved_spec objs event plugins
  ∧ ∀ plugin,
      _get_plugin_event_handlers objs plugin event = []
      ↔ matches_nothing objs plugin event = true.
Proof.
  split; [apply _get_event_handlers_spec|].
  intros plugin. rewrite _get_plugin_event_handlers_spec.
  apply matches_nothing_spec.
Qed.


(** C5. Two events of the same name processed in one run, with no plugin
    exit processed between them, are processed with the same handler list:
    the second takes the list cached by the first. *)
Theorem C5_same_name_same_handler_list (fuel : nat) (h : gmap nat (list Plugin))
    (self : GameEngine) (rp : Replay U) (t1 : list Obs) (e1 : EventObj)
    (hs1 : list Handler) (mid : list Obs) (e2 : EventObj) (hs2 : list Handler)
    (t3 : list Obs) :
  trace (state_of (run objs fuel h self rp))
    = t1 ++ Dispatch e1 hs1 :: mid ++ Dispatch e2 hs2 :: t3 →
  name (Obj e1) = name (Obj e2) →
  forallb (λ o, negb (is_exit o)) mid = true →
  hs2 = hs1.
Proof.
  destruct (run_state objs fuel h self rp) as (_ & _ & _ & _ & ->).
  revert t1 e1 hs1 mid e2 hs2 t3.
  change (same_name_same_handlers
            (trace (state_of (while_loop objs fuel (run_init h self rp))))).
  apply (while_loop_invariant objs
           (λ s, cache_recent s ∧ same_name_same_handlers (trace s))).
  - intros e rest s Hs _. by apply (cache_inv_step objs e (popleft s rest)).
  - split.
    + intros t1 e hs mid Ht. by destruct t1.
    + intros t1 e1 hs1 mid e2 hs2 t3 Ht. by destruct t1.
Qed.

(** X15. When a run has emptied its queue and every plugin still in the
    list of active plugins has a name, the run ends with each of them
    recorded with the outcome [(0, {})]; and every registered plugin that no
    processed exit named, nor named a plugin equal to it, is still in that
    list. *)
Theorem X15_remaining_plugins_recorded (fuel : nat) (h : gmap nat (list Plugin))
    (self : GameEngine) (rp : Replay U) (s0 : RunState U) :
  while_loop objs fuel (run_init h self rp) = Finished s0 →
  (∀ p, p ∈ active s0 → is_Some (plugin_name (objs p))) →
  ∃ s, run objs fuel h self rp = Finished s
       ∧ event_queue s = [] ∧ active s = active s0 ∧ trace s = trace s0
       ∧ (∀ p, p ∈ active s →
               ∃ n, plugin_name (objs p) = Some n
                    ∧ replay_plugins (replay s) !! n = Some (0%Z, ∅))
       ∧ (∀ p, p ∈ h !!! _plugins self →
               (∀ q, Exit q ∈ trace s → py_eq objs p q = false) →
               p ∈ active s).
Proof.
  intros Hloop Hnamed.
  destruct (proj1 (record_success_named objs (active s0) (replay s0)) Hnamed)
    as [rp' Hrec].
  exists (with_replay s0 rp'). split_and!.
  - unfold run, record_all. by rewrite Hloop, Hrec.
  - simpl. eapply (while_loop_finished_invariant objs (λ _, True)); eauto.
  - done.
  - done.
  - intros p Hp. eapply record_success_lookup; [exact Hrec|by left].
  - pose proof (while_loop_invariant objs
                  (λ s, ∀ p, p ∈ h !!! _plugins self →
                             (∀ q, Exit q ∈ trace s → py_eq objs p q = false) →
                             p ∈ active s)) as Hinv.
    specialize (Hinv (λ e rest s Hs _,
                        survivors_step objs _ e (popleft s rest) Hs)).
    specialize (Hinv fuel (run_init h self rp)). rewrite Hloop in Hinv.
    apply Hinv. intros p Hp _. by rewrite run_init_active.
Qed.


(** C9. A run never changes the registry of the engine: it works on a new
    list object holding a copy of the registry, a new empty handler cache
    and a new queue; every list that was in the heap before the run, the
    registry among them, is unchanged after it, whatever plugins were
    removed; and a later run on the same engine behaves as it would have
    without the first. *)
Theorem C9_run_leaves_registry_unchanged (fuel : nat)
    (h : gmap nat (list Plugin)) (self : GameEngine) (rp : Replay U) :
  is_Some (h !! _plugins self) →
  plugins (run_init h self rp) ≠ _plugins self
  ∧ active (run_init h self rp) = h !!! _plugins self
  ∧ handlers (run_init h self rp) = ∅
  ∧ (∀ l, is_Some (h !! l) →
          heap (state_of (run objs fuel h self rp)) !! l = h !! l)
  ∧ heap (state_of (run objs fuel h self rp)) !!! _plugins self
    = h !!! _plugins self
  ∧ (∀ fuel' rp',
       same_locals
         (state_of (run objs fuel' (heap (state_of (run objs fuel h self rp)))
                        self rp'))
         (state_of (run objs fuel' h self rp'))).
Proof.
  intros Hreg.
  assert (∀ l, is_Some (h !! l) →
               heap (state_of (run objs fuel h self rp)) !! l = h !! l)
    as Hframe.
  { destruct (run_state objs fuel h self rp) as (-> & _).
    pose proof (while_loop_invariant objs
                  (λ s, plugins s = fresh (dom h)
                        ∧ ∀ l, is_Some (h !! l) → heap s !! l = h !! l))
      as Hinv.
    apply Hinv; clear Hinv.
    - intros e rest s [Hpl Hheap] _.
      destruct (loop_body_frame objs e (popleft s rest)) as (Hpl' & Hh' & _).
      simpl in *. split; [by rewrite Hpl'|].
      intros l Hl. rewrite Hh'; [by apply Hheap|].
      rewrite Hpl. intros ->. apply elem_of_dom in Hl.
      by apply (is_fresh (dom h)).
    - split; [done|]. intros l Hl. simpl. apply lookup_insert_ne.
      intros <-. apply elem_of_dom in Hl. by apply (is_fresh (dom h)). }
  assert (heap (state_of (run objs fuel h self rp)) !!! _plugins self
          = h !!! _plugins self) as Hsame.
  { rewrite !lookup_total_alt. by rewrite Hframe. }
  split_and!; [|apply run_init_active|done|done|done|].
  - simpl. intros Heq. apply elem_of_dom in Hreg. rewrite <- Heq in Hreg.
    by apply (is_fresh (dom h)).
  - intros fuel' rp'. by apply run_same_locals.
Qed.

(** C10. An event whose name is the name of a category it belongs to (an
    event of the category class itself): a plugin exposing just the
    attribute of that name contributes it twice, once for the category and
    once for the concrete name -- the same bound method twice when it is a
    method -- and a step processing the event calls it twice. *)
Theorem C10_category_named_event_handled_twice (p : Plugin) (e : EventObj)
    (c : Category) :
  isinstance e c = true →
  name (Obj e) = class_name c →
  dom (attrs (objs p)) = {["handle" +:+ name (Obj e)]} →
  _get_plugin_event_handlers objs p e
    = [getattr objs p ("handle" +:+ name (Obj e)) PyNone;
       getattr objs p ("handle" +:+ name (Obj e)) PyNone]
  ∧ (callable objs (getattr objs p ("handle" +:+ name (Obj e)) PyNone) = true →
     _get_plugin_event_handlers objs p e
       = [BoundMethod p ("handle" +:+ name (Obj e));
          BoundMethod p ("handle" +:+ name (Obj e))])
  ∧ ∀ s s',
      active s = [p] → handlers s !! name (Obj e) = None →
      loop_body objs e s = Normal s' →
      trace s' = trace s ++
        [Dispatch e [BoundMethod p ("handle" +:+ name (Obj e));
                     BoundMethod p ("handle" +:+ name (Obj e))];
         Invoke (BoundMethod p ("handle" +:+ name (Obj e))) e;
         Invoke (BoundMethod p ("handle" +:+ name (Obj e))) e].
Proof.
  intros Hinst Hname Hdom.
  assert (∀ c', hasattr objs p ("handle" +:+ class_name c') = bool_decide (c' = c))
    as Hattr.
  { intros c'. rewrite hasattr_dom, Hdom, Hname. apply bool_decide_ext.
    rewrite elem_of_singleton. split; [apply class_handler_inj|by intros ->]. }
  assert (_get_plugin_event_handlers objs p e
          = [getattr objs p ("handle" +:+ name (Obj e)) PyNone;
             getattr objs p ("handle" +:+ name (Obj e)) PyNone]) as Hres.
  { rewrite _get_plugin_event_handlers_spec. unfold plugin_handlers_spec.
    change (name (Obj e)) with (ev_name_of e) in *.
    unfold categories. cbn [flat_map]. rewrite Hname, !Hattr.
    destruct c; simpl; rewrite Hinst; simpl;
      by rewrite ?andb_false_r. }
  assert (callable objs (getattr objs p ("handle" +:+ name (Obj e)) PyNone) = true →
          getattr objs p ("handle" +:+ name (Obj e)) PyNone
          = BoundMethod p ("handle" +:+ name (Obj e))) as Hbound.
  { unfold getattr.
    destruct (attrs (objs p) !! ("handle" +:+ name (Obj e))) as [[f| |]|] eqn:E;
      simpl; done. }
  split_and!; [done|by intros Hc; rewrite Hres, (Hbound Hc)|].
  intros s s' Hact Hmiss Hb.
  assert (handlers_for objs e s
          = [getattr objs p ("handle" +:+ name (Obj e)) PyNone;
             getattr objs p ("handle" +:+ name (Obj e)) PyNone]) as Hfor.
  { unfold handlers_for. rewrite Hmiss, Hact.
    unfold _get_event_handlers, builtin_sum. simpl. by rewrite Hres. }
  assert (name (Obj e) ≠ "PluginExit") as Hne by (rewrite Hname; by destruct c).
  assert (callable objs (getattr objs p ("handle" +:+ name (Obj e)) PyNone) = true)
    as Hc.
  { pose proof (for_event_handler_inr_callable objs (handlers_for objs e s) e []
                  (replay s) (trace s ++ [Dispatch e (handlers_for objs e s)]))
      as Hall.
    rewrite (loop_body_dispatch_eq objs e s Hne) in Hb.
    destruct (for_event_handler objs (handlers_for objs e s) e [] _ _)
      as [[[x rp'] t']|[[ne' rp'] t']]; [done|].
    apply Hall. rewrite Hfor. left. }
  destruct (loop_body_dispatch objs e s Hne)
    as (hs1 & hs2 & Hhs & _ & _ & _ & Htr & Hn).
  rewrite Hb in Htr, Hn. simpl in Htr. destruct Hn as (E & _). subst hs2.
  rewrite app_nil_r in Hhs. subst hs1.
  by rewrite Htr, Hfor, (Hbound Hc).
Qed.

End Properties.

(** * Concrete runs *)

Section Concrete.

Import Fixtures.

(** C1. The batch a step produces is put in front of the queue in the
    reverse of its production order: with a plugin whose [handleInitGame]
    yields [X] then [Y] and an empty replay, the queue after the first step
    is [Y], [X], the end event, and [Y] is processed before [X], where the
    comment in [run] and the specification want [X] first. *)
Theorem C1_batch_is_queued_in_reverse :
  event_queue
    (state_of (while_loop objs 1 (run_init (engine_heap [1]) (engine [1]) empty_replay)))
    = [Y; X; EndGameEvent]
  ∧ trace (state_of (run objs 10 (engine_heap [1]) (engine [1]) empty_replay))
    = [Dispatch InitGameEvent [BoundMethod 1 "handleInitGame"];
       Invoke (BoundMethod 1 "handleInitGame") InitGameEvent;
       Dispatch Y []; Dispatch X []; Dispatch EndGameEvent []].
Proof. split; vm_compute; reflexivity. Qed.



(** C4. A plugin registered twice is still called after its exit, and its
    exit record is lost: plugin 6 makes plugin 2 exit with code 9 at the
    start; [list.remove] takes out one of the two entries of plugin 2, the
    later event [X] is still handled by plugin 2, which is still active at
    the end, and the final loop overwrites its outcome with [(0, {})]. *)
Theorem C4_handler_called_after_exit :
  trace (state_of (run objs 10 (engine_heap [6; 2; 2]) (engine [6; 2; 2])
                       (replay_of [X])))
    = [Dispatch InitGameEvent [BoundMethod 6 "handleInitGame"];
       Invoke (BoundMethod 6 "handleInitGame") InitGameEvent;
       Exit 2;
       Dispatch X [BoundMethod 2 "handleX"];
       Invoke (BoundMethod 2 "handleX") X;
       Dispatch EndGameEvent []]
  ∧ ¬ silent_after_exit 2
        (trace (state_of (run objs 10 (engine_heap [6; 2; 2]) (engine [6; 2; 2])
                              (replay_of [X]))))
  ∧ active (state_of (run objs 10 (engine_heap [6; 2; 2]) (engine [6; 2; 2])
                          (replay_of [X]))) = [6; 2]
  ∧ replay_plugins
      (replay (state_of (run objs 10 (engine_heap [6; 2; 2]) (engine [6; 2; 2])
                             (replay_of [X]))))
      !! "listener" = Some (0%Z, ∅).
Proof.
  split_and!; [vm_compute; reflexivity| |vm_compute; reflexivity
              |vm_compute; reflexivity].
  intros H.
  apply (H [Dispatch InitGameEvent [BoundMethod 6 "handleInitGame"];
            Invoke (BoundMethod 6 "handleInitGame") InitGameEvent]
           [Dispatch X [BoundMethod 2 "handleX"];
            Invoke (BoundMethod 2 "handleX") X;
            Dispatch EndGameEvent []]
           (BoundMethod 2 "handleX") X).
  - vm_compute. reflexivity.
  - right. left.
  - reflexivity.
Qed.

(** The second event [Z2] is no [Event], and still gets the list cached for
    [Z1]. *)
Lemma C5_witness :
  trace (state_of (run objs 10 (engine_heap [4]) (engine [4]) (replay_of [Z1; Z2])))
    = [Dispatch InitGameEvent []]
        ++ Dispatch Z1 [BoundMethod 4 "handleEvent"]
        :: [Invoke (BoundMethod 4 "handleEvent") Z1]
        ++ Dispatch Z2 [BoundMethod 4 "handleEvent"]
        :: [Invoke (BoundMethod 4 "handleEvent") Z2; Dispatch EndGameEvent []]
  ∧ name (Obj Z1) = name (Obj Z2)
  ∧ forallb (λ o, negb (is_exit o)) [Invoke (BoundMethod 4 "handleEvent") Z1] = true
  ∧ [BoundMethod 4 "handleEvent"] = [BoundMethod 4 "handleEvent"].
Proof.
  split_and!; [vm_compute; reflexivity|reflexivity|reflexivity|].
  apply (C5_same_name_same_handler_list objs 10 (engine_heap [4]) (engine [4])
           (replay_of [Z1; Z2]) [Dispatch InitGameEvent []] Z1
           [BoundMethod 4 "handleEvent"]
           [Invoke (BoundMethod 4 "handleEvent") Z1] Z2
           [BoundMethod 4 "handleEvent"]
           [Invoke (BoundMethod 4 "handleEvent") Z2; Dispatch EndGameEvent []]);
    [vm_compute; reflexivity|reflexivity|reflexivity].
Defined.

(** C6. A plugin without [name], like the plugin of the module's own test,
    is not recorded: plugin 8 handles the one event of the replay, the queue
    is emptied with the plugin still active, and the final loop raises
    [AttributeError] at [plugin.name]; the run ends aborted and the outcome
    mapping stays empty. *)
Theorem C6_nameless_plugin_is_not_recorded :
  while_loop objs 10 (run_init (engine_heap [8]) (engine [8]) (replay_of [X]))
    = Finished (state_of (while_loop objs 10
                            (run_init (engine_heap [8]) (engine [8])
                                      (replay_of [X]))))
  ∧ event_queue (state_of (while_loop objs 10
                             (run_init (engine_heap [8]) (engine [8])
                                       (replay_of [X])))) = []
  ∧ active (state_of (while_loop objs 10
                        (run_init (engine_heap [8]) (engine [8])
                                  (replay_of [X])))) = [8]
  ∧ trace (state_of (while_loop objs 10
                       (run_init (engine_heap [8]) (engine [8]) (replay_of [X]))))
    = [Dispatch InitGameEvent [];
       Dispatch X [BoundMethod 8 "handleX"];
       Invoke (BoundMethod 8 "handleX") X;
       Dispatch EndGameEvent []]
  ∧ plugin_name (objs 8) = None
  ∧ run objs 10 (engine_heap [8]) (engine [8]) (replay_of [X])
    = Aborted AttributeError
        (state_of (run objs 10 (engine_heap [8]) (engine [8]) (replay_of [X])))
  ∧ replay_plugins
      (replay (state_of (run objs 10 (engine_heap [8]) (engine [8])
                             (replay_of [X])))) = ∅.
Proof. split_and!; vm_compute; reflexivity. Qed.

(** Plugin 5 exits, plugin 2 stays and is recorded with the default. *)
Lemma X15_witness :
  while_loop objs 10 (run_init (engine_heap [5; 2]) (engine [5; 2]) (replay_of [X; X]))
    = Finished (state_of (while_loop objs 10
                            (run_init (engine_heap [5; 2]) (engine [5; 2])
                                      (replay_of [X; X]))))
  ∧ (∀ p, p ∈ active (state_of (while_loop objs 10
                                  (run_init (engine_heap [5; 2]) (engine [5; 2])
                                            (replay_of [X; X])))) →
          is_Some (plugin_name (objs p)))
  ∧ ∃ s, run objs 10 (engine_heap [5; 2]) (engine [5; 2]) (replay_of [X; X])
         = Finished s
         ∧ replay_plugins (replay s) !! "listener" = Some (0%Z, ∅).
Proof.
  assert (while_loop objs 10
            (run_init (engine_heap [5; 2]) (engine [5; 2]) (replay_of [X; X]))
          = Finished (state_of (while_loop objs 10
                                  (run_init (engine_heap [5; 2]) (engine [5; 2])
                                            (replay_of [X; X]))))) as Hloop
    by (vm_compute; reflexivity).
  assert (active (state_of (while_loop objs 10
                              (run_init (engine_heap [5; 2]) (engine [5; 2])
                                        (replay_of [X; X])))) = [2]) as Hact
    by (vm_compute; reflexivity).
  assert (∀ p, p ∈ active (state_of (while_loop objs 10
                                       (run_init (engine_heap [5; 2]) (engine [5; 2])
                                                 (replay_of [X; X])))) →
               is_Some (plugin_name (objs p))) as Hnamed.
  { intros p. rewrite Hact. intros Hp%list_elem_of_singleton. subst p.
    by eexists. }
  split_and!; [exact Hloop|exact Hnamed|].
  destruct (X15_remaining_plugins_recorded objs 10 _ _ _ _ Hloop Hnamed)
    as (s & Hrun & _ & Ha & _ & Hrec & _).
  exists s. split; [exact Hrun|].
  destruct (Hrec 2) as (n & Hn & Hl).
  - rewrite Ha, Hact. left.
  - by inversion Hn; subst n.
Defined.


(** Plugin 5 is removed during the run; the registry still lists it. *)
Lemma C9_witness :
  is_Some (engine_heap [5; 2] !! _plugins (engine [5; 2]))
  ∧ heap (state_of (run objs 10 (engine_heap [5; 2]) (engine [5; 2])
                        (replay_of [X; X])))
      !!! _plugins (engine [5; 2])
    = engine_heap [5; 2] !!! _plugins (engine [5; 2]).
Proof.
  assert (is_Some (engine_heap [5; 2] !! _plugins (engine [5; 2]))) as Hreg
    by (vm_compute; eexists; reflexivity).
  split; [exact Hreg|].
  destruct (C9_run_leaves_registry_unchanged objs 10 _ _ (replay_of [X; X]) Hreg)
    as (_ & _ & _ & _ & Hsame & _).
  exact Hsame.
Defined.

(** The universal plugin and an event of the class [Event] itself. *)
Lemma C10_witness :
  isinstance plain_event Event = true
  ∧ name (Obj plain_event) = class_name Event
  ∧ dom (attrs (objs 4)) = {["handle" +:+ name (Obj plain_event)]}
  ∧ _get_plugin_event_handlers objs 4 plain_event
    = [BoundMethod 4 ("handle" +:+ name (Obj plain_event));
       BoundMethod 4 ("handle" +:+ name (Obj plain_event))].
Proof.
  assert (dom (attrs (objs 4)) = {["handle" +:+ name (Obj plain_event)]}) as Hdom
    by (vm_compute; reflexivity).
  split_and!; [reflexivity|reflexivity|exact Hdom|].
  destruct (C10_category_named_event_handled_twice objs 4 plain_event Event
              eq_refl eq_refl Hdom) as (_ & Hres & _).
  apply Hres. vm_compute. reflexivity.
Defined.

(** The bookend scenario of the specification: with no event in the
    replay, [handleInitGame] is called, then [handleX] for the event it
    yielded, then [handleEndGame]. *)
Example bookend_scenario :
  trace (state_of (run objs 10 (engine_heap [0]) (engine [0]) empty_replay))
    = [Dispatch InitGameEvent [BoundMethod 0 "handleInitGame"];
       Invoke (BoundMethod 0 "handleInitGame") InitGameEvent;
       Dispatch X [BoundMethod 0 "handleX"];
       Invoke (BoundMethod 0 "handleX") X;
       Dispatch EndGameEvent [BoundMethod 0 "handleEndGame"];
       Invoke (BoundMethod 0 "handleEndGame") EndGameEvent]
  ∧ replay_user
      (replay (state_of (run objs 10 (engine_heap [0]) (engine [0]) empty_replay)))
    = ["X"; "end"].
Proof. split; vm_compute; reflexivity. Qed.

(** The exit scenario: plugin 5 exits while handling the first [X]; it is
    called for the first [X] and not for the second, its outcome is the one
    it gave and the remaining plugin gets the default. The method
    [handlePluginExit] of plugin 2 is never called. *)
Example exit_scenario :
  trace (state_of (run objs 10 (engine_heap [5; 2]) (engine [5; 2])
                       (replay_of [X; X])))
    = [Dispatch InitGameEvent [];
       Dispatch X [BoundMethod 5 "handleX"; BoundMethod 2 "handleX"];
       Invoke (BoundMethod 5 "handleX") X;
       Invoke (BoundMethod 2 "handleX") X;
       Exit 5;
       Dispatch X [BoundMethod 2 "handleX"];
       Invoke (BoundMethod 2 "handleX") X;
       Dispatch EndGameEvent []]
  ∧ map_to_list
      (replay_plugins
         (replay (state_of (run objs 10 (engine_heap [5; 2]) (engine [5; 2])
                                (replay_of [X; X])))))
    ≡ₚ [("leaver", (7%Z, ∅)); ("listener", (0%Z, ∅))].
Proof.
  split; [vm_compute; reflexivity|].
  assert (replay_plugins
            (replay (state_of (run objs 10 (engine_heap [5; 2]) (engine [5; 2])
                                   (replay_of [X; X]))))
          = <["leaver" := (7%Z, ∅)]> (<["listener" := (0%Z, ∅)]> ∅)) as ->
    by (vm_compute; reflexivity).
  rewrite map_to_list_insert by done.
  by rewrite insert_empty, map_to_list_singleton.
Qed.

(** The duplicate exit: the run aborts with only the outcome of the plugin
    that exited; the plugin still active has no record. *)
Example duplicate_exit_scenario :
  run objs 10 (engine_heap [3; 2]) (engine [3; 2]) (replay_of [X])
    = Aborted ValueError
        (state_of (run objs 10 (engine_heap [3; 2]) (engine [3; 2]) (replay_of [X])))
  ∧ replay_plugins
      (replay (state_of (run objs 10 (engine_heap [3; 2]) (engine [3; 2])
                             (replay_of [X]))))
    = {["quitter" := (1%Z, ∅)]}.
Proof. split; vm_compute; reflexivity. Qed.

End Concrete.

(** * The registry and the resolution, further *)

Section Registry.

Context {U : Type} (objs : Plugin → PluginObj U).

Lemma register_plugins_lookup (h : gmap nat (list Plugin)) (self : GameEngine)
    (ps : list Plugin) :
  register_plugins h self ps !!! _plugins self = (h !!! _plugins self) ++ ps
  ∧ (∀ l, l ≠ _plugins self → register_plugins h self ps !! l = h !! l)
  ∧ (is_Some (h !! _plugins self) →
     is_Some (register_plugins h self ps !! _plugins self)).
Proof.
  revert h. induction ps as [|p ps IH]; intros h.
  - simpl. split_and!; [by rewrite app_nil_r|done|done].
  - unfold register_plugins in *. simpl.
    destruct (IH (register_plugin h self p)) as (Hself & Hother & Hsome).
    split_and!.
    + rewrite Hself. unfold register_plugin.
      by rewrite lookup_total_insert_eq, <- app_assoc.
    + intros l Hl. rewrite Hother by done. unfold register_plugin.
      by rewrite lookup_insert_ne.
    + intros _. apply Hsome. unfold register_plugin.
      rewrite lookup_insert_eq. eauto.
Qed.

(** X1. [register_plugins] appends the plugins to the registry in argument
    order, keeping what was registered and any duplicate, and touches no
    other list; [register_plugin] is the case of one plugin. *)
Theorem X1_register_plugins_appends (h : gmap nat (list Plugin))
    (self : GameEngine) (ps : list Plugin) (p : Plugin) :
  register_plugins h self ps !!! _plugins self = (h !!! _plugins self) ++ ps
  ∧ register_plugin h self p !!! _plugins self = (h !!! _plugins self) ++ [p]
  ∧ (∀ l, l ≠ _plugins self →
          register_plugins h self ps !! l = h !! l
          ∧ register_plugin h self p !! l = h !! l)
  ∧ occurrences p (register_plugin h self p !!! _plugins self)
    = S (occurrences p (h !!! _plugins self)).
Proof.
  destruct (register_plugins_lookup h self ps) as (Hself & Hother & _).
  destruct (register_plugins_lookup h self [p]) as (Hself1 & Hother1 & _).
  split_and!; [done|done| |].
  - intros l Hl. split; [by apply Hother|by apply Hother1].
  - change (register_plugin h self p) with (register_plugins h self [p]).
    rewrite Hself1. unfold occurrences.
    rewrite filter_app, length_app, filter_cons_True by done. simpl. lia.
Qed.

(** X2. [GameEngine(plugins)] makes a new list for its registry, holding
    the given plugins in order, and leaves every list of the heap as it was;
    so two engines built one after the other have registries that are
    different objects, each with its own plugins. *)
Theorem X2_engines_have_their_own_registry (h : gmap nat (list Plugin))
    (ps1 ps2 : list Plugin) :
  (_plugins (fst (__init__ h ps1)) ∉ dom h)
  ∧ snd (__init__ h ps1) !!! _plugins (fst (__init__ h ps1)) = ps1
  ∧ (∀ l, is_Some (h !! l) → snd (__init__ h ps1) !! l = h !! l)
  ∧ _plugins (fst (__init__ (snd (__init__ h ps1)) ps2))
    ≠ _plugins (fst (__init__ h ps1))
  ∧ snd (__init__ (snd (__init__ h ps1)) ps2) !!! _plugins (fst (__init__ h ps1))
    = ps1
  ∧ snd (__init__ (snd (__init__ h ps1)) ps2)
      !!! _plugins (fst (__init__ (snd (__init__ h ps1)) ps2))
    = ps2.
Proof.
  assert (∀ h0 ps,
            (_plugins (fst (__init__ h0 ps)) ∉ dom h0)
            ∧ snd (__init__ h0 ps) !!! _plugins (fst (__init__ h0 ps)) = ps
            ∧ (∀ l, is_Some (h0 !! l) → snd (__init__ h0 ps) !! l = h0 !! l)
            ∧ is_Some (snd (__init__ h0 ps) !! _plugins (fst (__init__ h0 ps))))
    as Hinit.
  { intros h0 ps. unfold __init__. simpl.
    destruct (register_plugins_lookup (<[fresh (dom h0) := []]> h0)
                (mkEngine (fresh (dom h0))) ps) as (Hself & Hother & Hsome).
    simpl in *. split_and!.
    - apply is_fresh.
    - by rewrite Hself, lookup_total_insert_eq.
    - intros l Hl.
      assert (l ≠ fresh (dom h0)) as Hne.
      { intros ->. apply elem_of_dom in Hl. by apply (is_fresh (dom h0)). }
      rewrite Hother by done. by rewrite lookup_insert_ne.
    - apply Hsome. rewrite lookup_insert_eq. eauto. }
  destruct (Hinit h ps1) as (Hf1 & Hs1 & Ho1 & Ha1).
  destruct (Hinit (snd (__init__ h ps1)) ps2) as (Hf2 & Hs2 & Ho2 & _).
  split_and!; try done.
  - intros Heq. apply Hf2. rewrite Heq. by apply elem_of_dom.
  - rewrite lookup_total_alt, (Ho2 _ Ha1), <- lookup_total_alt. done.
Qed.

Lemma _get_event_handlers_app (event : EventObj) (l1 l2 : list Plugin) :
  _get_event_handlers objs event (l1 ++ l2)
  = _get_event_handlers objs event l1 ++ _get_event_handlers objs event l2.
Proof.
  unfold _get_event_handlers. rewrite !builtin_sum_start. simpl.
  by rewrite map_app, concat_app.
Qed.

(** X3. Resolution goes plugin by plugin: against the empty list it gives
    no handler, against a concatenation the concatenation of the two
    resolutions; so taking one plugin out of the list takes out its block of
    handlers and leaves the others in their order. *)
Theorem X3_resolution_distributes (event : EventObj) (l1 l2 : list Plugin)
    (p : Plugin) :
  _get_event_handlers objs event [] = []
  ∧ _get_event_handlers objs event (l1 ++ l2)
    = _get_event_handlers objs event l1 ++ _get_event_handlers objs event l2
  ∧ _get_event_handlers objs event (l1 ++ p :: l2)
    = _get_event_handlers objs event l1
      ++ _get_plugin_event_handlers objs p event
      ++ _get_event_handlers objs event l2.
Proof.
  split_and!; [done|apply _get_event_handlers_app|].
  rewrite _get_event_handlers_app. f_equal.
  change (p :: l2) with ([p] ++ l2). by rewrite _get_event_handlers_app.
Qed.

Lemma categories_complete (c : Category) : c ∈ categories.
Proof. unfold categories. destruct c; set_solver. Qed.

Lemma plugin_handlers_spec_length (plugin : Plugin) (event : EventObj) :
  length (plugin_handlers_spec objs plugin event) ≤ 8.
Proof.
  unfold plugin_handlers_spec, categories. cbn [flat_map].
  rewrite !length_app.
  repeat match goal with
         | |- context [if ?b then _ else _] => destruct b
         end; simpl; lia.
Qed.

Lemma _get_plugin_event_handlers_elem (plugin : Plugin) (event : EventObj)
    (h : Handler) :
  h ∈ _get_plugin_event_handlers objs plugin event ↔
  ∃ m, h = getattr objs plugin ("handle" +:+ m) PyNone
       ∧ hasattr objs plugin ("handle" +:+ m) = true
       ∧ (m = name (Obj event)
          ∨ ∃ c, m = class_name c ∧ isinstance event c = true).
Proof.
  rewrite _get_plugin_event_handlers_spec.
  unfold plugin_handlers_spec. rewrite elem_of_app. split.
  - intros [Hin|Hin].
    + apply list_elem_of_In, in_flat_map in Hin. destruct Hin as (c & _ & Hin).
      destruct (isinstance event c) eqn:Hi; simpl in Hin; [|done].
      destruct (hasattr objs plugin ("handle" +:+ class_name c)) eqn:E;
        simpl in Hin; [|done].
      destruct Hin as [<-|[]]. exists (class_name c).
      split_and!; [done|done|right; by exists c].
    + destruct (hasattr objs plugin ("handle" +:+ ev_name_of event)) eqn:E.
      * apply list_elem_of_singleton in Hin. subst.
        exists (ev_name_of event). split_and!; [done|done|by left].
      * by apply not_elem_of_nil in Hin.
  - intros (m & -> & Ha & [->|(c & -> & Hi)]).
    + right. simpl in Ha. rewrite Ha. apply list_elem_of_singleton. done.
    + left. apply list_elem_of_In, in_flat_map. exists c. split.
      * apply list_elem_of_In, categories_complete.
      * rewrite Hi, Ha. simpl. by left.
Qed.

Lemma _get_event_handlers_elem_handle (event : EventObj) (ps : list Plugin)
    (h : Handler) :
  h ∈ _get_event_handlers objs event ps →
  ∃ p m, h = getattr objs p ("handle" +:+ m) PyNone ∧ p ∈ ps
         ∧ hasattr objs p ("handle" +:+ m) = true.
Proof.
  rewrite _get_event_handlers_spec. unfold resolved_spec.
  intros Hin. apply list_elem_of_In, in_concat in Hin.
  destruct Hin as (l & Hl & Hin). apply in_map_iff in Hl.
  destruct Hl as (p & <- & Hp).
  rewrite <- _get_plugin_event_handlers_spec in Hin.
  apply list_elem_of_In, _get_plugin_event_handlers_elem in Hin.
  destruct Hin as (m & -> & Ha & _). exists p, m.
  split_and!; [done|by apply list_elem_of_In|done].
Qed.

(** What [getattr] gives for an attribute that exists: the bound method
    when it holds a function, [None] when it holds [None]. *)
Lemma getattr_value (plugin : Plugin) (a : string) :
  hasattr objs plugin a = true →
  match attrs (objs plugin) !! a with
  | Some (Function _) => getattr objs plugin a PyNone = BoundMethod plugin a
  | Some NoneValue => getattr objs plugin a PyNone = PyNone
  | Some OtherValue => getattr objs plugin a PyNone = PyValue plugin a
  | None => False
  end.
Proof.
  unfold hasattr, getattr. intros H%bool_decide_eq_true.
  destruct (attrs (objs plugin) !! a) as [[f| |]|]; try done.
Qed.

(** X4. What one plugin contributes for an event: exactly the values of its
    attributes [handle<N>] that exist, for [N] the name of the event or the
    name of a category the event is an instance of -- the bound method where
    the attribute holds a function, [None] where it holds [None] -- so the
    list holds [None] exactly when such an attribute is [None], and it has
    at most eight entries. *)
Theorem X4_plugin_handlers_membership (plugin : Plugin) (event : EventObj)
    (h : Handler) :
  (h ∈ _get_plugin_event_handlers objs plugin event ↔
   ∃ m, h = getattr objs plugin ("handle" +:+ m) PyNone
        ∧ hasattr objs plugin ("handle" +:+ m) = true
        ∧ (m = name (Obj event)
           ∨ ∃ c, m = class_name c ∧ isinstance event c = true))
  ∧ (PyNone ∈ _get_plugin_event_handlers objs plugin event ↔
     ∃ m, attrs (objs plugin) !! ("handle" +:+ m) = Some NoneValue
          ∧ (m = name (Obj event)
             ∨ ∃ c, m = class_name c ∧ isinstance event c = true))
  ∧ (∀ a, h = BoundMethod plugin a →
          h ∈ _get_plugin_event_handlers objs plugin event →
          callable objs h = true)
  ∧ length (_get_plugin_event_handlers objs plugin event) ≤ 8.
Proof.
  split_and!; [apply _get_plugin_event_handlers_elem| | |].
  - rewrite _get_plugin_event_handlers_elem. split.
    + intros (m & Hm & Ha & Hcase). exists m. split; [|done].
      pose proof (getattr_value _ _ Ha) as Hv. rewrite <- Hm in Hv.
      by destruct (attrs (objs plugin) !! ("handle" +:+ m)) as [[f| |]|].
    + intros (m & Hm & Hcase). exists m. split_and!; [|by unfold hasattr; rewrite Hm|done].
      unfold getattr. by rewrite Hm.
  - intros a -> Hin. apply _get_plugin_event_handlers_elem in Hin
      as (m & Hm & Ha & _).
    pose proof (getattr_value _ _ Ha) as Hv. rewrite <- Hm in Hv.
    unfold callable.
    destruct (attrs (objs plugin) !! ("handle" +:+ m)) as [[f| |]|] eqn:E;
      try done.
    inversion Hv; subst a. by rewrite E.
  - rewrite _get_plugin_event_handlers_spec. apply plugin_handlers_spec_length.
Qed.

End Registry.

(** * What a run calls, and how it can fail *)

Section Safety.

Context {U : Type} (objs : Plugin → PluginObj U).

Lemma hasattr_lookup (p : Plugin) (a : string) :
  hasattr objs p a = true → ∃ v, attrs (objs p) !! a = Some v.
Proof. unfold hasattr. by intros H%bool_decide_eq_true. Qed.

(** A bound method comes from a function of the very plugin and attribute
    that were looked up. *)
Lemma getattr_bound (p q : Plugin) (a b : string) :
  getattr objs q b PyNone = BoundMethod p a →
  p = q ∧ a = b ∧ ∃ f, attrs (objs p) !! a = Some (Function f).
Proof.
  unfold getattr. destruct (attrs (objs q) !! b) as [[f| |]|] eqn:E; try done.
  intros [= <- <-]. eauto.
Qed.

(** What is not callable was looked up from an attribute that holds no
    function. *)
Lemma getattr_not_callable (p : Plugin) (a : string) :
  hasattr objs p a = true →
  callable objs (getattr objs p a PyNone) = false →
  attrs (objs p) !! a = Some NoneValue ∨ attrs (objs p) !! a = Some OtherValue.
Proof.
  intros [v Hv]%hasattr_lookup. unfold getattr, callable. rewrite Hv.
  destruct v as [f| |]; simpl; [|by left|by right].
  by rewrite Hv.
Qed.

(** The [for] loop stops early in two ways only: at a handler that cannot be
    called, or at a function that raises; the handlers before it were all
    called. *)
Lemma for_event_handler_raise (hs : list Handler) (event : EventObj)
    (new_events : list EventObj) (rp : Replay U) (t : list Obs) :
  match for_event_handler objs hs event new_events rp t with
  | inl (x, rp', t') =>
      ∃ hs1 h hs2,
        hs = hs1 ++ h :: hs2
        ∧ ((x = TypeError ∧ callable objs h = false
            ∧ t' = t ++ invocations event hs1)
           ∨ (x = HandlerFault
              ∧ t' = t ++ invocations event hs1 ++ [Invoke h event]
              ∧ ∃ p a f rp0,
                  h = BoundMethod p a
                  ∧ attrs (objs p) !! a = Some (Function f)
                  ∧ f event rp0 = Raises rp'))
  | inr _ => True
  end.
Proof.
  revert new_events rp t. induction hs as [|h hs IH]; intros ne rp t; [done|].
  simpl. destruct (callable objs h) eqn:Hc.
  - destruct (callable_bound objs h Hc) as (p & a & f & -> & Hf).
    simpl. rewrite Hf.
    destruct (f event rp) as [r rp'|rp'] eqn:Hcall.
    + specialize (IH (ne ++ default [] r) rp' (t ++ [Invoke (BoundMethod p a) event])).
      destruct (for_event_handler objs hs event _ rp' _)
        as [[[x rp''] t']|[[ne' rp''] t']]; [|done].
      destruct IH as (hs1 & h' & hs2 & -> & Hcase).
      exists (BoundMethod p a :: hs1), h', hs2. split; [done|].
      destruct Hcase as [(-> & Hnc & ->)|(-> & -> & Hrest)]; [left|right].
      * split_and!; try done. simpl. by rewrite <- app_assoc.
      * split_and!; try done. simpl. by rewrite <- !app_assoc.
    + exists [], (BoundMethod p a), hs. split; [done|]. right.
      split_and!; try done. exists p, a, f, rp. by split_and!.
  - rewrite (not_callable_call objs h event rp Hc).
    exists [], h, hs. split; [done|]. left. split_and!; try done.
    simpl. by rewrite app_nil_r.
Qed.

(** Every call the [for] loop logs is a call of one of its handlers, which is
    callable. *)
Lemma for_event_handler_calls (hs : list Handler) (event : EventObj)
    (new_events : list EventObj) (rp : Replay U) (t : list Obs)
    (h : Handler) (e : EventObj) :
  Invoke h e ∈ match for_event_handler objs hs event new_events rp t with
               | inl (_, _, t') => t'
               | inr (_, _, t') => t'
               end →
  Invoke h e ∈ t ∨ (e = event ∧ h ∈ hs ∧ callable objs h = true).
Proof.
  revert new_events rp t. induction hs as [|h0 hs IH]; intros ne rp t; simpl.
  - by left.
  - destruct (callable objs h0) eqn:Hc.
    + destruct (call objs h0 event rp) as [[x rp']|[r rp']].
      * rewrite elem_of_app, list_elem_of_singleton.
        intros [Hin|Heq]; [by left|]. inversion Heq; subst h0 e.
        right. split_and!; [done|by left|done].
      * intros Hin. apply IH in Hin.
        destruct Hin as [Hin|(-> & Hin & Hc')].
        -- apply elem_of_app in Hin as [Hin|Hin]; [by left|].
           apply list_elem_of_singleton in Hin. inversion Hin; subst h0 e.
           right. split_and!; [done|by left|done].
        -- right. split_and!; [done|by right|done].
    + rewrite (not_callable_call objs h0 event rp Hc). by left.
Qed.

Lemma handlers_for_bound (registry : list Plugin) (event : EventObj)
    (s : RunState U) (h : Handler) :
  cache_bound objs registry s → h ∈ handlers_for objs event s →
  ∃ p m, h = getattr objs p ("handle" +:+ m) PyNone ∧ p ∈ active s
         ∧ hasattr objs p ("handle" +:+ m) = true.
Proof.
  intros [_ Hc] Hin. unfold handlers_for in Hin.
  destruct (handlers s !! name (Obj event)) as [hs|] eqn:E.
  - by apply (Hc _ _ _ E).
  - by apply _get_event_handlers_elem_handle in Hin.
Qed.

Lemma cache_bound_step (registry : list Plugin) (event : EventObj)
    (s : RunState U) :
  cache_bound objs registry s →
  cache_bound objs registry (result_state (loop_body objs event s)).
Proof.
  intros Hb. pose proof Hb as [Hreg Hc].
  destruct (loop_body_cases objs event s)
    as [(q & c & d & l & -> & Hrm & s' & -> & Hact & _ & _ & Hh & _ & _ & _)
       |[(x & -> & _)|Hname]]; simpl.
  - split.
    + intros r Hr. rewrite Hact in Hr. apply Hreg.
      by eapply list_remove_subseteq.
    + intros n hs h Hl. rewrite Hh in Hl. by rewrite lookup_empty in Hl.
  - done.
  - destruct (loop_body_dispatch objs event s Hname)
      as (hs1 & hs2 & _ & Hheap & Hpl & Hh & _ & _).
    set (s' := result_state (loop_body objs event s)) in *.
    assert (active s' = active s) as Hact by (unfold active; by rewrite Hheap, Hpl).
    split; [by rewrite Hact|].
    intros n hs h Hl Hin. rewrite Hact. rewrite Hh in Hl.
    destruct (decide (name (Obj event) = n)) as [<-|Hne].
    + rewrite lookup_insert_eq in Hl. inversion Hl; subst hs.
      by eapply handlers_for_bound.
    + rewrite lookup_insert_ne in Hl by done. by eapply Hc.
Qed.

Lemma calls_registered_step (registry : list Plugin) (event : EventObj)
    (s : RunState U) :
  cache_bound objs registry s ∧ calls_registered objs registry (trace s) →
  cache_bound objs registry (result_state (loop_body objs event s))
  ∧ calls_registered objs registry (trace (result_state (loop_body objs event s))).
Proof.
  intros [Hb Hcalls]. split; [by apply cache_bound_step|].
  destruct (loop_body_cases objs event s)
    as [(q & c & d & l & -> & Hrm & s' & -> & _ & _ & _ & _ & _ & Htr & _)
       |[(x & -> & _)|Hname]]; simpl.
  - intros h e. rewrite Htr, elem_of_app, list_elem_of_singleton.
    intros [Hin|Hin]; [by apply Hcalls|done].
  - done.
  - intros h e Hin.
    assert (Invoke h e ∈ trace s ++ [Dispatch event (handlers_for objs event s)]
            ∨ (e = event ∧ h ∈ handlers_for objs event s
               ∧ callable objs h = true)) as Hcase.
    { apply (for_event_handler_calls (handlers_for objs event s) event []
               (replay s)).
      rewrite (loop_body_dispatch_eq objs event s Hname) in Hin.
      by destruct (for_event_handler objs (handlers_for objs event s) event []
                     (replay s) _) as [[[x rp'] t']|[[ne' rp'] t']]. }
    destruct Hcase as [Hold|(-> & Hh & Hc)].
    + apply elem_of_app in Hold as [Hold|Hold]; [by apply Hcalls|].
      by apply list_elem_of_singleton in Hold.
    + split; [done|].
      destruct (handlers_for_bound registry event s h Hb Hh) as (p & m & Heq & Hp & Ha).
      destruct (callable_bound objs h Hc) as (p' & a & f & -> & Hf).
      symmetry in Heq. apply getattr_bound in Heq as (-> & -> & _).
      exists p, m. split_and!; [done| |done]. by apply Hb.
Qed.

Lemma cache_bound_init (h : gmap nat (list Plugin)) (self : GameEngine)
    (rp : Replay U) :
  cache_bound objs (h !!! _plugins self) (run_init h self rp).
Proof.
  split.
  - intros q. by rewrite run_init_active.
  - intros n hs hd Hl. simpl in Hl. by rewrite lookup_empty in Hl.
Qed.

(** X5. A run only ever calls methods named [handle...] that exist on
    plugins of the registry, and never calls one for a plugin exit event. *)
Theorem X5_run_calls_registered_handle_methods (fuel : nat)
    (h : gmap nat (list Plugin)) (self : GameEngine) (rp : Replay U)
    (hd : Handler) (e : EventObj) :
  Invoke hd e ∈ trace (state_of (run objs fuel h self rp)) →
  name (Obj e) ≠ "PluginExit"
  ∧ ∃ p m, hd = BoundMethod p ("handle" +:+ m)
           ∧ p ∈ h !!! _plugins self
           ∧ hasattr objs p ("handle" +:+ m) = true.
Proof.
  destruct (run_state objs fuel h self rp) as (_ & _ & _ & _ & ->).
  revert hd e.
  change (calls_registered objs (h !!! _plugins self)
            (trace (state_of (while_loop objs fuel (run_init h self rp))))).
  apply (while_loop_invariant objs
           (λ s, cache_bound objs (h !!! _plugins self) s
                 ∧ calls_registered objs (h !!! _plugins self) (trace s))).
  - intros ev rest s Hs _.
    by apply (calls_registered_step _ ev (popleft s rest)).
  - split; [apply cache_bound_init|].
    intros hd e Hin. by apply not_elem_of_nil in Hin.
Qed.

(** When the loop ends aborted, it stood at some event whose body raised. *)
Lemma while_loop_Aborted (fuel : nat) (s s' : RunState U) (x : Exn) :
  while_loop objs fuel s = Aborted x s' →
  ∃ n s0 event rest,
    n < fuel ∧ while_loop objs n s = Running s0 ∧
    event_queue s0 = event :: rest ∧
    loop_body objs event (popleft s0 rest) = Raised x s'.
Proof.
  revert s. induction fuel as [|k IH]; intros s; simpl.
  - by destruct (event_queue s).
  - destruct (event_queue s) as [|e rest] eqn:Hq; [done|].
    destruct (loop_body objs e (popleft s rest)) as [s1|y s1] eqn:Hb.
    + intros Hloop. destruct (IH s1 Hloop) as (n & s0 & ev & rest' & Hn & Hrun & Hq' & Hb').
      exists (S n), s0, ev, rest'. split_and!; [lia| |done|done].
      simpl. by rewrite Hq, Hb.
    + intros [= <- <-]. exists 0, s, e, rest. split_and!; [lia| |done|done].
      simpl. by rewrite Hq.
Qed.

(** The final loop fails only at an active plugin without a name. *)
Lemma record_success_inl (ps : list Plugin) (rp rp' : Replay U) (x : Exn) :
  record_success objs rp ps = inl (x, rp') →
  x = AttributeError ∧ ∃ p, p ∈ ps ∧ plugin_name (objs p) = None.
Proof.
  revert rp. induction ps as [|q ps IH]; intros rp; simpl; [done|].
  destruct (plugin_name (objs q)) as [nq|] eqn:Hq.
  - intros Hrec. destruct (IH _ Hrec) as (-> & p & Hp & Hn).
    split; [done|]. exists p. split; [by right|done].
  - intros [= <- <-]. split; [done|]. exists q. split; [by left|done].
Qed.

(** X6. The ways a run aborts. Inside the loop, at the event it stood at after
    some number of steps: an exit event naming a plugin that no active entry
    equals ([ValueError], nothing changed); an event named [PluginExit] that
    carries no plugin ([AttributeError]); an exit event of a plugin without
    a [name] ([AttributeError], after the entry was removed and the cache
    cleared, with no outcome recorded); a [handle...] attribute of an active
    plugin that holds no function, such as [None] ([TypeError]); or a handler
    that raised, the last entry of the log being that call. After the loop:
    an active plugin without a [name] ([AttributeError], the queue empty). *)
Theorem X6_causes_of_abort (fuel : nat) (h : gmap nat (list Plugin))
    (self : GameEngine) (rp : Replay U) (x : Exn) (s : RunState U) :
  run objs fuel h self rp = Aborted x s →
  (∃ n s0 event rest,
     n < fuel ∧ while_loop objs n (run_init h self rp) = Running s0 ∧
     event_queue s0 = event :: rest ∧
     ((∃ p code details,
         event = PluginExit p code details ∧ x = ValueError
         ∧ py_in objs p (active s0) = false
         ∧ s = popleft s0 rest)
      ∨ (∃ bases payload,
           event = Instance "PluginExit" bases payload ∧ x = AttributeError
           ∧ s = popleft s0 rest)
      ∨ (∃ p code details l,
           event = PluginExit p code details ∧ x = AttributeError
           ∧ plugin_name (objs p) = None
           ∧ list_remove objs p (active s0) = Some l
           ∧ active s = l ∧ handlers s = ∅ ∧ replay s = replay s0
           ∧ trace s = trace s0 ++ [Exit p])
      ∨ (name (Obj event) ≠ "PluginExit" ∧ x = TypeError
         ∧ ∃ p m,
             p ∈ active s0
             ∧ (attrs (objs p) !! ("handle" +:+ m) = Some NoneValue
                ∨ attrs (objs p) !! ("handle" +:+ m) = Some OtherValue)
             ∧ getattr objs p ("handle" +:+ m) PyNone
               ∈ handlers_for objs event (popleft s0 rest))
      ∨ (name (Obj event) ≠ "PluginExit" ∧ x = HandlerFault
         ∧ ∃ t p m f rp0,
             trace s = t ++ [Invoke (BoundMethod p ("handle" +:+ m)) event]
             ∧ p ∈ active s0
             ∧ attrs (objs p) !! ("handle" +:+ m) = Some (Function f)
             ∧ f event rp0 = Raises (replay s))))
  ∨ (∃ s0 p,
       while_loop objs fuel (run_init h self rp) = Finished s0
       ∧ x = AttributeError
       ∧ p ∈ active s0 ∧ plugin_name (objs p) = None
       ∧ event_queue s = [] ∧ active s = active s0 ∧ trace s = trace s0).
Proof.
  unfold run. intros Hrun.
  destruct (while_loop objs fuel (run_init h self rp)) as [s1|y s1|s1] eqn:Hloop;
    [| |done].
  { right. unfold record_all in Hrun.
    destruct (record_success objs (replay s1) (active s1)) as [[y rp']|rp'] eqn:E;
      [|done].
    inversion Hrun; subst y s. clear Hrun.
    destruct (record_success_inl _ _ _ _ E) as (-> & p & Hp & Hn).
    exists s1, p. split_and!; try done.
    simpl.
    pose proof (while_loop_finished_invariant objs (λ _, True)
                  (λ _ _ _ _ _ _ _, I) fuel _ _ I Hloop) as [_ Hq]. done. }
  left. inversion Hrun; subst y s1. clear Hrun.
  destruct (while_loop_Aborted _ _ _ _ Hloop)
    as (n & s0 & ev & rest & Hn & Hrunning & Hq & Hb).
  exists n, s0, ev, rest. split_and!; try done.
  assert (cache_bound objs (h !!! _plugins self) s0) as Hbound.
  { pose proof (while_loop_invariant objs (cache_bound objs (h !!! _plugins self))
                  (λ e r s1 Hs _, cache_bound_step _ e (popleft s1 r) Hs)
                  n (run_init h self rp) (cache_bound_init h self rp)) as Hinv.
    by rewrite Hrunning in Hinv. }
  destruct (decide (name (Obj ev) = "PluginExit")) as [Hname|Hname].
  - destruct ev as [nm b pl|p c d].
    + right; left. simpl in Hname. subst nm. exists b, pl.
      unfold loop_body in Hb. rewrite decide_True in Hb by done.
      by inversion Hb.
    + rewrite loop_body_exit in Hb.
      change (active (popleft s0 rest)) with (active s0) in Hb.
      destruct (list_remove objs p (active s0)) as [l|] eqn:E.
      * right; right; left. exists p, c, d, l.
        destruct (plugin_name (objs p)) as [np|] eqn:Hnp; [done|].
        inversion Hb; subst x s. split_and!; try done.
        unfold active. simpl. by rewrite lookup_total_insert_eq.
      * left. exists p, c, d. inversion Hb. split_and!; try done.
        by apply list_remove_py_in.
  - rewrite (loop_body_dispatch_eq objs ev (popleft s0 rest) Hname) in Hb.
    pose proof (for_event_handler_raise
                  (handlers_for objs ev (popleft s0 rest)) ev []
                  (replay (popleft s0 rest))
                  (trace (popleft s0 rest)
                     ++ [Dispatch ev (handlers_for objs ev (popleft s0 rest))]))
      as Hfor.
    assert (∀ hd, hd ∈ handlers_for objs ev (popleft s0 rest) →
                  ∃ p m, hd = getattr objs p ("handle" +:+ m) PyNone
                         ∧ p ∈ active s0
                         ∧ hasattr objs p ("handle" +:+ m) = true) as Hall.
    { intros hd Hin.
      by apply (handlers_for_bound (h !!! _plugins self) ev (popleft s0 rest)). }
    destruct (for_event_handler objs _ ev [] _ _)
      as [[[y rp'] t']|[[ne' rp'] t']]; [|done].
    destruct Hfor as (hs1 & hd & hs2 & Hhs & Hcase).
    inversion Hb; subst x s. simpl.
    destruct (Hall hd) as (p & m & Heq & Hp & Ha).
    { rewrite Hhs, elem_of_app, elem_of_cons. tauto. }
    destruct Hcase as [(-> & Hnc & ->)|(-> & -> & q & a & f & rp0 & -> & Hf & Hr)].
    + right; right; right; left. split_and!; try done.
      exists p, m. split_and!; [done| |].
      * subst hd. by apply getattr_not_callable.
      * rewrite <- Heq, Hhs, elem_of_app, elem_of_cons. tauto.
    + right; right; right; right. split_and!; try done.
      symmetry in Heq. apply getattr_bound in Heq as (-> & -> & _).
      eexists _, p, m, f, rp0. split_and!; [|done|done|done].
      by rewrite !app_assoc.
Qed.

End Safety.

(** * Runs that come to an end *)

Section Termination.

Context {U : Type} (objs : Plugin → PluginObj U).

Lemma dispatched_app (t1 t2 : list Obs) :
  dispatched (t1 ++ t2) = dispatched t1 ++ dispatched t2.
Proof. unfold dispatched. apply omap_app. Qed.

Lemma dispatched_invocations (event : EventObj) (hs : list Handler) :
  dispatched (invocations event hs) = [].
Proof. induction hs as [|h hs IH]; [done|]. simpl. apply IH. Qed.

Lemma for_event_handler_quiet (hs : list Handler) (event : EventObj)
    (new_events : list EventObj) (rp : Replay U) (t : list Obs) :
  (∀ h, h ∈ hs → ∃ p a, h = getattr objs p a PyNone ∧ hasattr objs p a = true
                        ∧ quiet_plugin objs p) →
  ∃ rp', for_event_handler objs hs event new_events rp t
         = inr (new_events, rp', t ++ invocations event hs).
Proof.
  revert rp t. induction hs as [|h hs IH]; intros rp t Hhs; simpl.
  - exists rp. by rewrite app_nil_r.
  - destruct (Hhs h) as (p & a & -> & Ha & Hquiet); [left|].
    apply hasattr_lookup in Ha as [v Hv].
    destruct (Hquiet _ _ Hv) as (f & -> & Hf).
    unfold getattr. rewrite Hv. simpl. rewrite Hv.
    destruct (Hf event rp) as (r & rp' & -> & ->).
    rewrite app_nil_r.
    destruct (IH rp' (t ++ [Invoke (BoundMethod p a) event])) as [rp'' Hrec].
    { intros h Hh. apply Hhs. by right. }
    exists rp''. rewrite Hrec. by rewrite <- app_assoc.
Qed.

Lemma while_loop_nil (fuel : nat) (s : RunState U) :
  event_queue s = [] → while_loop objs fuel s = Finished s.
Proof. intros Hq. destruct fuel; simpl; by rewrite Hq. Qed.

(** With quiet plugins, each step takes one event off the queue and adds
    none, so the loop is done after as many steps as events are queued. *)
Lemma while_loop_quiet (registry : list Plugin) (q : list EventObj) :
  ∀ (s : RunState U) (k : nat),
    event_queue s = q →
    (∀ e, e ∈ q → name (Obj e) ≠ "PluginExit") →
    cache_bound objs registry s →
    (∀ p, p ∈ active s → quiet_plugin objs p) →
    ∃ s', while_loop objs (length q + k) s = Finished s'
          ∧ active s' = active s
          ∧ dispatched (trace s') = dispatched (trace s) ++ q.
Proof.
  induction q as [|e rest IH]; intros s k Hq Hnames Hbound Hquiet.
  - exists s. rewrite while_loop_nil by done. by rewrite app_nil_r.
  - simpl. rewrite Hq.
    assert (name (Obj e) ≠ "PluginExit") as Hname by (apply Hnames; left).
    pose proof (cache_bound_step objs registry e (popleft s rest)) as Hstep.
    rewrite (loop_body_dispatch_eq objs e (popleft s rest) Hname) in *.
    destruct (for_event_handler_quiet
                (handlers_for objs e (popleft s rest)) e [] (replay (popleft s rest))
                (trace (popleft s rest)
                   ++ [Dispatch e (handlers_for objs e (popleft s rest))]))
      as [rp' Hfor].
    { intros hd Hin.
      destruct (handlers_for_bound objs registry e (popleft s rest) hd)
        as (p & m & -> & Hp & Ha); [done|done|].
      exists p, ("handle" +:+ m). split_and!; [done|done|by apply Hquiet]. }
    rewrite Hfor in *. simpl in Hstep.
    match goal with
    | |- ∃ s', while_loop objs _ ?s1 = _ ∧ _ =>
        destruct (IH s1 k) as (s' & Hloop & Hact & Hdisp)
    end.
    + reflexivity.
    + intros e' He'. apply Hnames. by right.
    + apply Hstep. exact Hbound.
    + done.
    + exists s'. split_and!; [exact Hloop|by rewrite Hact|].
      rewrite Hdisp. simpl. rewrite !dispatched_app, dispatched_invocations.
      simpl. by rewrite app_nil_r, <- app_assoc.
Qed.

(** X7. If every method of the registered plugins returns without raising
    and yields no event, every registered plugin has a name, and the replay
    holds no plugin exit, the run ends after one step per event plus the two
    sentinels: it processes the init event, the events of the replay in order
    and the end event, every registered plugin is still active and is
    recorded under its name with the outcome [(0, {})]. *)
Theorem X7_quiet_run_terminates (k : nat) (h : gmap nat (list Plugin))
    (self : GameEngine) (rp : Replay U) :
  (∀ p, p ∈ h !!! _plugins self → quiet_plugin objs p) →
  (∀ p, p ∈ h !!! _plugins self → is_Some (plugin_name (objs p))) →
  (∀ e, e ∈ replay_events rp → name (Obj e) ≠ "PluginExit") →
  ∃ s, run objs (length (replay_events rp) + 2 + k) h self rp = Finished s
       ∧ event_queue s = []
       ∧ active s = h !!! _plugins self
       ∧ dispatched (trace s)
         = InitGameEvent :: replay_events rp ++ [EndGameEvent]
       ∧ ∀ p, p ∈ h !!! _plugins self →
              ∃ n, plugin_name (objs p) = Some n
                   ∧ replay_plugins (replay s) !! n = Some (0%Z, ∅).
Proof.
  intros Hquiet Hnamed Hnames.
  destruct (while_loop_quiet (h !!! _plugins self)
              (InitGameEvent :: replay_events rp ++ [EndGameEvent])
              (run_init h self rp) k) as (s' & Hloop & Hact & Hdisp).
  - done.
  - intros e. rewrite elem_of_cons, elem_of_app, list_elem_of_singleton.
    intros [->|[He| ->]]; [done|by apply Hnames|done].
  - apply cache_bound_init.
  - intros p. rewrite run_init_active. apply Hquiet.
  - rewrite run_init_active in Hact.
    assert (length (replay_events rp) + 2 + k
            = length (InitGameEvent :: replay_events rp ++ [EndGameEvent]) + k)
      as -> by (simpl; rewrite length_app; simpl; lia).
    unfold run. rewrite Hloop. unfold record_all.
    destruct (proj1 (record_success_named objs (active s') (replay s')))
      as [rp' Hrec].
    { intros p Hp. apply Hnamed. by rewrite <- Hact. }
    rewrite Hrec. eexists. split; [reflexivity|].
    simpl. split_and!.
    + eapply (while_loop_finished_invariant objs (λ _, True)); eauto.
    + unfold active. simpl. exact Hact.
    + exact Hdisp.
    + intros p Hp. apply (record_success_lookup objs _ _ _ _ Hrec).
      left. by rewrite Hact.
Qed.

Lemma while_loop_no_plugins (q : list EventObj) :
  ∀ (s : RunState U) (k : nat),
    event_queue s = q →
    (∀ e, e ∈ q → name (Obj e) ≠ "PluginExit") →
    cache_bound objs [] s →
    ∃ s', while_loop objs (length q + k) s = Finished s'
          ∧ replay s' = replay s ∧ active s' = []
          ∧ trace s' = trace s ++ map (λ e, Dispatch e []) q.
Proof.
  induction q as [|e rest IH]; intros s k Hq Hnames Hbound.
  - exists s. rewrite while_loop_nil by done. split_and!; [done|done| |].
    + destruct Hbound as [Hreg _]. destruct (active s) as [|p l] eqn:E; [done|].
      exfalso. apply (not_elem_of_nil p), Hreg. left.
    + by rewrite app_nil_r.
  - simpl. rewrite Hq.
    assert (name (Obj e) ≠ "PluginExit") as Hname by (apply Hnames; left).
    pose proof (cache_bound_step objs [] e (popleft s rest)) as Hstep.
    rewrite (loop_body_dispatch_eq objs e (popleft s rest) Hname) in *.
    assert (handlers_for objs e (popleft s rest) = []) as Hnone.
    { destruct (handlers_for objs e (popleft s rest)) as [|hd hs] eqn:E; [done|].
      exfalso.
      destruct (handlers_for_bound objs [] e (popleft s rest) hd)
        as (p & m & _ & Hp & _); [done|rewrite E; left|].
      destruct Hbound as [Hreg _]. by apply (not_elem_of_nil p), Hreg. }
    rewrite Hnone in *. simpl in *.
    match goal with
    | |- ∃ s', while_loop objs _ ?s1 = _ ∧ _ =>
        destruct (IH s1 k) as (s' & Hloop & Hrp & Hact & Htr)
    end.
    + reflexivity.
    + intros e' He'. apply Hnames. by right.
    + apply Hstep. exact Hbound.
    + exists s'. split_and!; [exact Hloop|by rewrite Hrp|done|].
      rewrite Htr. simpl. by rewrite <- app_assoc.
Qed.

(** X8. A run of an engine without plugins, on a replay that holds no
    plugin exit, ends after one step per event plus the two sentinels: every
    event is processed with the empty handler list, nothing is called, the
    replay is as it was and its outcome mapping is empty. *)
Theorem X8_run_without_plugins (k : nat) (h : gmap nat (list Plugin))
    (self : GameEngine) (rp : Replay U) :
  h !!! _plugins self = [] →
  (∀ e, e ∈ replay_events rp → name (Obj e) ≠ "PluginExit") →
  ∃ s, run objs (length (replay_events rp) + 2 + k) h self rp = Finished s
       ∧ replay s = mkReplay (replay_events rp) ∅ (replay_user rp)
       ∧ trace s
         = map (λ e, Dispatch e [])
               (InitGameEvent :: replay_events rp ++ [EndGameEvent]).
Proof.
  intros Hempty Hnames.
  destruct (while_loop_no_plugins
              (InitGameEvent :: replay_events rp ++ [EndGameEvent])
              (run_init h self rp) k) as (s' & Hloop & Hrp & Hact & Htr).
  - done.
  - intros e. rewrite elem_of_cons, elem_of_app, list_elem_of_singleton.
    intros [->|[He| ->]]; [done|by apply Hnames|done].
  - rewrite <- Hempty. apply cache_bound_init.
  - assert (length (replay_events rp) + 2 + k
            = length (InitGameEvent :: replay_events rp ++ [EndGameEvent]) + k)
      as -> by (simpl; rewrite length_app; simpl; lia).
    unfold run. rewrite Hloop. unfold record_all. rewrite Hact. simpl.
    eexists. split; [reflexivity|].
    simpl. split; [by rewrite Hrp|exact Htr].
Qed.

End Termination.

(** * The outcome mapping and the handler lists of a run *)

Section Outcomes.

Context {U : Type} (objs : Plugin → PluginObj U).

Lemma for_event_handler_keeps (hs : list Handler) (event : EventObj)
    (new_events : list EventObj) (rp : Replay U) (t : list Obs) :
  (∀ h, h ∈ hs → ∃ p a, h = getattr objs p a PyNone ∧ keeps_outcomes objs p) →
  match for_event_handler objs hs event new_events rp t with
  | inl _ => True
  | inr (_, rp', _) => replay_plugins rp' = replay_plugins rp
  end.
Proof.
  revert new_events rp t. induction hs as [|h hs IH]; intros ne rp t Hhs; [done|].
  simpl. destruct (Hhs h) as (p & a & -> & Hkeep); [left|].
  unfold getattr.
  destruct (attrs (objs p) !! a) as [[f| |]|] eqn:Hf; simpl; try done.
  rewrite Hf.
  destruct (f event rp) as [r rp'|rp'] eqn:Hcall; [|done].
  specialize (IH (ne ++ default [] r) rp' (t ++ [Invoke (BoundMethod p a) event])).
  destruct (for_event_handler objs hs event _ rp' _)
    as [[[x rp''] t']|[[ne' rp''] t']]; [done|].
  rewrite IH; [by eapply (Hkeep _ _ Hf)|].
  intros h Hh. apply Hhs. by right.
Qed.

Lemma record_success_dom (ps : list Plugin) (rp rp' : Replay U) (key : string) :
  record_success objs rp ps = inr rp' →
  key ∈ dom (replay_plugins rp') ↔
  key ∈ dom (replay_plugins rp) ∨ ∃ p, p ∈ ps ∧ plugin_name (objs p) = Some key.
Proof.
  revert rp. induction ps as [|q ps IH]; intros rp; simpl.
  - intros [= <-]. split; [by left|]. intros [?|(p & Hp & _)]; [done|].
    by apply not_elem_of_nil in Hp.
  - destruct (plugin_name (objs q)) as [nq|] eqn:Hq; [|done].
    intros Hrec. rewrite (IH _ Hrec). simpl.
    rewrite dom_insert, elem_of_union, elem_of_singleton.
    split.
    + intros [[->|?]|(p & Hp & Hn)].
      * right. exists q. split; [left|done].
      * by left.
      * right. exists p. split; [by right|done].
    + intros [?|(p & Hp & Hn)]; [by left; right|].
      apply elem_of_cons in Hp as [->|Hp].
      * left; left. rewrite Hq in Hn. by inversion Hn.
      * right. by exists p.
Qed.

(** The keys of the outcome mapping are names of registered plugins, and
    every registered plugin is active or has its outcome recorded. *)
Lemma outcome_keys_step (registry : list Plugin) (event : EventObj)
    (s s' : RunState U) :
  (∀ p, p ∈ registry → keeps_outcomes objs p) →
  (∀ p, p ∈ registry → default_eq objs p) →
  cache_bound objs registry s →
  (∀ key, key ∈ dom (replay_plugins (replay s)) →
          ∃ p, p ∈ registry ∧ plugin_name (objs p) = Some key) →
  (∀ p, p ∈ registry →
        p ∈ active s
        ∨ ∃ n, plugin_name (objs p) = Some n
               ∧ n ∈ dom (replay_plugins (replay s))) →
  loop_body objs event s = Normal s' →
  (∀ key, key ∈ dom (replay_plugins (replay s')) →
          ∃ p, p ∈ registry ∧ plugin_name (objs p) = Some key)
  ∧ (∀ p, p ∈ registry →
          p ∈ active s'
          ∨ ∃ n, plugin_name (objs p) = Some n
                 ∧ n ∈ dom (replay_plugins (replay s'))).
Proof.
  intros Hkeep Hdef Hbound Hkeys Hall Hb.
  destruct (decide (name (Obj event) = "PluginExit")) as [Hname|Hname].
  - destruct event as [nm b pl|q c d].
    { unfold loop_body in Hb. by rewrite decide_True in Hb. }
    rewrite loop_body_exit in Hb.
    destruct (list_remove objs q (active s)) as [l|] eqn:E; [|done].
    destruct (plugin_name (objs q)) as [nq|] eqn:Hnq; [|done].
    inversion Hb; subst s'. clear Hb. unfold active. simpl.
    rewrite lookup_total_insert_eq.
    assert (q ∈ registry) as Hq.
    { pose proof E as E'.
      apply list_remove_Some in E' as (l1 & y & l2 & Hl & Hy & _).
      assert (y ∈ registry) as Hyr.
      { apply Hbound. rewrite Hl, elem_of_app, elem_of_cons. tauto. }
      rewrite (py_eq_default objs y q (Hdef y Hyr q)) in Hy.
      apply bool_decide_eq_true in Hy. by subst y. }
    split.
    + intros key. rewrite dom_insert, elem_of_union, elem_of_singleton.
      intros [->|Hin]; [by exists q|by apply Hkeys].
    + intros p Hp.
      destruct (decide (p = q)) as [->|Hne].
      { right. exists nq. split; [done|].
        rewrite dom_insert, elem_of_union, elem_of_singleton. by left. }
      destruct (Hall p Hp) as [Hin|(n & Hn & Hin)].
      * left. apply (list_remove_other objs q (active s) l E p); [|done].
        rewrite (py_eq_default objs p q (Hdef p Hp q)).
        by apply bool_decide_eq_false.
      * right. exists n. split; [done|].
        rewrite dom_insert, elem_of_union. by right.
  - rewrite (loop_body_dispatch_eq objs event s Hname) in Hb.
    pose proof (for_event_handler_keeps (handlers_for objs event s) event []
                  (replay s)
                  (trace s ++ [Dispatch event (handlers_for objs event s)]))
      as Hfor.
    destruct (for_event_handler objs _ event [] _ _)
      as [[[x rp'] t']|[[ne' rp'] t']]; [done|].
    inversion Hb; subst s'. clear Hb. unfold active. simpl.
    rewrite Hfor; [done|].
    intros hd Hin.
    destruct (handlers_for_bound objs registry event s hd Hbound Hin)
      as (p & m & -> & Hp & _).
    exists p, ("handle" +:+ m). split; [done|]. by apply Hkeep, Hbound.
Qed.

(** X9. If the methods of the registered plugins leave the outcome mapping
    alone and no registered plugin redefines [==], then after a run that came
    to its end the keys of [replay.plugins] are exactly the names of the
    registered plugins: each one was recorded at its exit or by the final
    loop, and nothing else is recorded. *)
Theorem X9_outcome_keys_are_registered_names (fuel : nat)
    (h : gmap nat (list Plugin)) (self : GameEngine) (rp : Replay U)
    (s : RunState U) (key : string) :
  (∀ p, p ∈ h !!! _plugins self → keeps_outcomes objs p) →
  (∀ p, p ∈ h !!! _plugins self → default_eq objs p) →
  run objs fuel h self rp = Finished s →
  key ∈ dom (replay_plugins (replay s)) ↔
  ∃ p, p ∈ h !!! _plugins self ∧ plugin_name (objs p) = Some key.
Proof.
  intros Hkeep Hdef Hrun.
  apply run_Finished in Hrun as (s0 & rp' & Hloop & Hrec & ->).
  destruct (while_loop_finished_invariant objs
              (λ s1, cache_bound objs (h !!! _plugins self) s1
                     ∧ (∀ key, key ∈ dom (replay_plugins (replay s1)) →
                               ∃ p, p ∈ h !!! _plugins self
                                    ∧ plugin_name (objs p) = Some key)
                     ∧ (∀ p, p ∈ h !!! _plugins self →
                             p ∈ active s1
                             ∨ ∃ n, plugin_name (objs p) = Some n
                                    ∧ n ∈ dom (replay_plugins (replay s1))))
              ) with fuel (run_init h self rp) s0 as [(Hbound & Hkeys & Hall) _].
  - intros e rest s1 s1' (Hb & Hk & Ha) _ Hbody. split.
    + pose proof (cache_bound_step objs _ e (popleft s1 rest) Hb) as Hstep.
      by rewrite Hbody in Hstep.
    + by apply (outcome_keys_step _ e (popleft s1 rest) s1').
  - split_and!; [apply cache_bound_init| |].
    + intros k Hk. simpl in Hk. by rewrite dom_empty, elem_of_empty in Hk.
    + intros p Hp. left. by rewrite run_init_active.
  - done.
  - simpl. rewrite (record_success_dom _ _ _ key Hrec). split.
    + intros [Hin|(p & Hp & Hn)]; [by apply Hkeys|].
      exists p. split; [by apply Hbound|done].
    + intros (p & Hp & Hn). destruct (Hall p Hp) as [Hin|(n & Hn' & Hin)].
      * right. by exists p.
      * left. rewrite Hn in Hn'. by inversion Hn'.
Qed.

Lemma active_after_app (registry : list Plugin) (t1 t2 : list Obs) :
  active_after objs registry (t1 ++ t2)
  = active_after objs (active_after objs registry t1) t2.
Proof.
  revert registry. induction t1 as [|o t1 IH]; intros registry; [done|].
  destruct o; simpl; apply IH.
Qed.

Lemma active_after_dispatch (registry : list Plugin) (event : EventObj)
    (hs hs1 : list Handler) :
  active_after objs registry (Dispatch event hs :: invocations event hs1) = registry.
Proof. simpl. induction hs1 as [|h hs1 IH]; [done|]. simpl. apply IH. Qed.

Lemma active_after_sublist (registry : list Plugin) (t : list Obs) :
  active_after objs registry t `sublist_of` registry.
Proof.
  revert registry. induction t as [|o t IH]; intros registry; [done|].
  destruct o as [e hs|hd e|p]; simpl; try apply IH.
  destruct (list_remove objs p registry) as [l|] eqn:E; simpl; [|apply IH].
  etrans; [apply IH|].
  apply list_remove_Some in E as (l1 & y & l2 & -> & _ & _ & ->).
  apply sublist_app; [done|]. by apply sublist_cons.
Qed.

Lemma active_after_step (registry : list Plugin) (event : EventObj)
    (s : RunState U) :
  active s = active_after objs registry (trace s) →
  active (result_state (loop_body objs event s))
  = active_after objs registry (trace (result_state (loop_body objs event s))).
Proof.
  intros Hact.
  destruct (loop_body_cases objs event s)
    as [(q & c & d & l & -> & Hrm & s' & -> & Hact' & _ & _ & _ & _ & Htr & _)
       |[(x & -> & _)|Hname]]; simpl.
  - rewrite Hact', Htr, active_after_app, <- Hact. simpl. by rewrite Hrm.
  - done.
  - destruct (loop_body_dispatch objs event s Hname)
      as (hs1 & hs2 & _ & Hheap & Hpl & _ & Htr & _).
    rewrite Htr, active_after_app, active_after_dispatch, <- Hact.
    unfold active. by rewrite Hheap, Hpl.
Qed.

(** X10. At every point of a run the list of active plugins is the registry
    with, for each exit processed so far, the first entry that is [==] to
    the plugin of the exit taken out: the order of registration is kept and
    nothing is ever added. *)
Theorem X10_active_plugins_follow_exits (fuel : nat)
    (h : gmap nat (list Plugin)) (self : GameEngine) (rp : Replay U) :
  active (state_of (run objs fuel h self rp))
  = active_after objs (h !!! _plugins self)
                 (trace (state_of (run objs fuel h self rp)))
  ∧ active (state_of (run objs fuel h self rp)) `sublist_of` h !!! _plugins self.
Proof.
  assert (active (state_of (run objs fuel h self rp))
          = active_after objs (h !!! _plugins self)
                         (trace (state_of (run objs fuel h self rp)))) as Heq.
  { destruct (run_state objs fuel h self rp) as (Hh & Hp & _ & _ & ->).
    unfold active at 1. rewrite Hh, Hp.
    apply (while_loop_invariant objs
             (λ s, active s = active_after objs (h !!! _plugins self) (trace s))).
    - intros e rest s Hs _. by apply (active_after_step _ e (popleft s rest)).
    - by rewrite run_init_active. }
  split; [done|]. rewrite Heq. apply active_after_sublist.
Qed.

End Outcomes.

(** * The cache does not change what is called *)

Section Exactness.

Context {U : Type} (objs : Plugin → PluginObj U).

Lemma same_class_spec (e1 e2 : EventObj) :
  same_class e1 e2 = true → ∀ c, isinstance e1 c = isinstance e2 c.
Proof.
  unfold same_class. rewrite forallb_forall. intros H c.
  eapply bool_decide_eq_true_1, H, list_elem_of_In, categories_complete.
Qed.

Lemma same_class_resolution (e1 e2 : EventObj) (ps : list Plugin) :
  name (Obj e1) = name (Obj e2) → same_class e1 e2 = true →
  _get_event_handlers objs e1 ps = _get_event_handlers objs e2 ps.
Proof.
  intros Hname Hclass. pose proof (same_class_spec _ _ Hclass) as Hinst.
  rewrite !_get_event_handlers_spec. unfold resolved_spec. f_equal.
  apply map_ext. intros p. unfold plugin_handlers_spec.
  simpl in Hname. rewrite Hname. f_equal.
  apply flat_map_ext. intros c. by rewrite Hinst.
Qed.

Lemma consistent_names_spec (l : list EventObj) (e1 e2 : EventObj) :
  consistent_names l = true → e1 ∈ l → e2 ∈ l →
  name (Obj e1) = name (Obj e2) → same_class e1 e2 = true.
Proof.
  unfold consistent_names. rewrite forallb_forall.
  intros H H1 H2 Hname. apply list_elem_of_In in H1, H2.
  specialize (H e1 H1). rewrite forallb_forall in H. specialize (H e2 H2).
  by rewrite decide_True in H.
Qed.

Lemma consistent_names_app_l (l1 l2 : list EventObj) :
  consistent_names (l1 ++ l2) = true → consistent_names l1 = true.
Proof.
  unfold consistent_names. rewrite !forallb_forall. intros H e1 H1.
  rewrite forallb_forall. intros e2 H2.
  assert (In e1 (l1 ++ l2)) as H1' by (apply in_or_app; by left).
  assert (In e2 (l1 ++ l2)) as H2' by (apply in_or_app; by left).
  specialize (H e1 H1'). rewrite forallb_forall in H. by apply H.
Qed.

Lemma exact_step (registry : list Plugin) (event : EventObj) (s : RunState U) :
  active s = active_after objs registry (trace s) →
  (consistent_names (dispatched (trace s)) = true →
   cache_exact objs s ∧ dispatch_exact objs registry (trace s)) →
  consistent_names
    (dispatched (trace (result_state (loop_body objs event s)))) = true →
  cache_exact objs (result_state (loop_body objs event s))
  ∧ dispatch_exact objs registry (trace (result_state (loop_body objs event s))).
Proof.
  intros Hact Hinv.
  destruct (loop_body_cases objs event s)
    as [(q & c & d & l & -> & Hrm & s' & -> & _ & _ & _ & Hh & _ & Htr & _)
       |[(x & -> & _)|Hname]]; simpl.
  - rewrite Htr, dispatched_app. simpl. rewrite app_nil_r. intros Hcons.
    destruct (Hinv Hcons) as [_ Hexact]. split.
    + intros n hs Hl. rewrite Hh in Hl. by rewrite lookup_empty in Hl.
    + intros t1 e hs t2 Ht.
      apply app_eq_split in Ht as [(t2' & Ht & _)|(l0 & _ & Hl0)].
      * by eapply Hexact.
      * destruct l0 as [|? [|? ?]]; simpl in Hl0; inversion Hl0.
  - done.
  - destruct (loop_body_dispatch objs event s Hname)
      as (hs1 & hs2 & _ & Hheap & Hpl & Hh & Htr & _).
    set (s' := result_state (loop_body objs event s)) in *.
    assert (active s' = active s) as Hact' by (unfold active; by rewrite Hheap, Hpl).
    rewrite Htr, dispatched_app. simpl. rewrite dispatched_invocations.
    intros Hcons.
    destruct (Hinv (consistent_names_app_l _ _ Hcons)) as [Hcache Hexact].
    assert (handlers_for objs event s = _get_event_handlers objs event (active s))
      as Hfor.
    { unfold handlers_for.
      destruct (handlers s !! name (Obj event)) as [hs|] eqn:E; [|done].
      destruct (Hcache _ _ E) as (e0 & He0 & Hn & ->).
      apply same_class_resolution; [done|].
      apply (consistent_names_spec _ _ _ Hcons); [| |done].
      - rewrite elem_of_app. by left.
      - rewrite elem_of_app, list_elem_of_singleton. by right. }
    split.
    + intros n hs Hl. rewrite Hh in Hl. rewrite Hact', Htr, dispatched_app.
      simpl. rewrite dispatched_invocations.
      destruct (decide (name (Obj event) = n)) as [<-|Hne].
      * rewrite lookup_insert_eq in Hl. inversion Hl; subst hs.
        exists event. split_and!; [|done|done].
        rewrite elem_of_app, list_elem_of_singleton. by right.
      * rewrite lookup_insert_ne in Hl by done.
        destruct (Hcache _ _ Hl) as (e0 & He0 & Hn & ->).
        exists e0. split_and!; [|done|done]. rewrite elem_of_app. by left.
    + intros t1 e hs t2 Ht.
      apply app_eq_split in Ht as [(t2' & Ht & _)|(l0 & -> & Hl0)].
      * by eapply Hexact.
      * apply dispatch_ext_split in Hl0 as [(-> & Heq & _)|(h' & ? & _)]; [|done].
        inversion Heq; subst e hs.
        by rewrite app_nil_r, <- Hact.
Qed.

Lemma run_dispatch_exact (fuel : nat) (h : gmap nat (list Plugin))
    (self : GameEngine) (rp : Replay U) :
  consistent_names (dispatched (trace (state_of (run objs fuel h self rp)))) = true →
  dispatch_exact objs (h !!! _plugins self)
    (trace (state_of (run objs fuel h self rp))).
Proof.
  destruct (run_state objs fuel h self rp) as (_ & _ & _ & _ & ->).
  pose proof (while_loop_invariant objs
                (λ s, active s = active_after objs (h !!! _plugins self) (trace s)
                      ∧ (consistent_names (dispatched (trace s)) = true →
                         cache_exact objs s
                         ∧ dispatch_exact objs (h !!! _plugins self) (trace s))))
    as Hinv.
  intros Hcons. apply Hinv; [| |done].
  - intros ev rest s [Hact Hs] _. split.
    + by apply (active_after_step objs _ ev (popleft s rest)).
    + by apply (exact_step _ ev (popleft s rest)).
  - split; [by rewrite run_init_active|]. intros _. split.
    + intros n hs0 Hl. simpl in Hl. by rewrite lookup_empty in Hl.
    + intros t1 e0 hs0 t2 Ht. by destruct t1.
Qed.

(** X11. If, among the events a run processed, events of one name are
    instances of the same categories, then every event was processed with
    exactly the handlers that resolution gives for it against the plugins
    active at that point (the registry less the exits before it): the cache
    keyed by name saves the resolution and changes nothing. *)
Theorem X11_dispatch_is_resolution (fuel : nat) (h : gmap nat (list Plugin))
    (self : GameEngine) (rp : Replay U) (t1 : list Obs) (e : EventObj)
    (hs : list Handler) (t2 : list Obs) :
  consistent_names (dispatched (trace (state_of (run objs fuel h self rp)))) = true →
  trace (state_of (run objs fuel h self rp)) = t1 ++ Dispatch e hs :: t2 →
  hs = _get_event_handlers objs e (active_after objs (h !!! _plugins self) t1).
Proof.
  intros Hcons Ht. by apply (run_dispatch_exact fuel h self rp Hcons t1 e hs t2).
Qed.

End Exactness.

(** * Nothing queued is lost *)

Section Queue.

Context {U : Type} (objs : Plugin → PluginObj U).

Lemma ordinary_app (l1 l2 : list EventObj) :
  ordinary (l1 ++ l2) = ordinary l1 ++ ordinary l2.
Proof. unfold ordinary. apply filter_app. Qed.

Lemma queue_kept_step (original : list EventObj) (event : EventObj)
    (rest : list EventObj) (s s' : RunState U) :
  original `sublist_of` dispatched (trace s) ++ ordinary (event_queue s) →
  event_queue s = event :: rest →
  loop_body objs event (popleft s rest) = Normal s' →
  original `sublist_of` dispatched (trace s') ++ ordinary (event_queue s').
Proof.
  intros Hsub Hq Hb. rewrite Hq in Hsub.
  destruct (loop_body_cases objs event (popleft s rest))
    as [(q & c & d & l & -> & Hrm & s1 & Hs1 & _ & _ & _ & _ & Hq' & Htr & _)
       |[(x & Hx & _)|Hname]].
  - rewrite Hb in Hs1. simpl in Hs1. subst s1.
    rewrite Htr, Hq', dispatched_app. simpl. by rewrite app_nil_r.
  - by rewrite Hb in Hx.
  - destruct (loop_body_dispatch objs event (popleft s rest) Hname)
      as (hs1 & hs2 & _ & _ & _ & _ & Htr & Hres).
    rewrite Hb in Htr, Hres. simpl in Htr. destruct Hres as (_ & batch & ->).
    rewrite Htr, dispatched_app, ordinary_app.
    change (event_queue (popleft s rest)) with rest.
    change (dispatched (Dispatch event (handlers_for objs event (popleft s rest))
                          :: invocations event hs1))
      with (event :: dispatched (invocations event hs1)).
    rewrite dispatched_invocations.
    change (trace (popleft s rest)) with (trace s).
    unfold ordinary in Hsub at 1. rewrite filter_cons_True in Hsub by done.
    fold (ordinary rest) in Hsub.
    etrans; [exact Hsub|]. rewrite <- app_assoc. simpl.
    apply sublist_app; [done|]. apply sublist_skip. by apply sublist_inserts_l.
Qed.

(** X12. A run that drains its queue has processed the init event, every
    event of the replay that is not a plugin exit, and the end event, in
    that order; events produced by handlers come between them and none of
    the queued ones is dropped or overtaken by a later one. *)
Theorem X12_replay_events_processed_in_order (fuel : nat)
    (h : gmap nat (list Plugin)) (self : GameEngine) (rp : Replay U)
    (s : RunState U) :
  run objs fuel h self rp = Finished s →
  (InitGameEvent :: ordinary (replay_events rp) ++ [EndGameEvent])
    `sublist_of` dispatched (trace s).
Proof.
  intros Hrun. apply run_Finished in Hrun as (s0 & rp' & Hloop & Hrec & ->). simpl.
  destruct (while_loop_finished_invariant objs
              (λ s1, (InitGameEvent :: ordinary (replay_events rp) ++ [EndGameEvent])
                       `sublist_of`
                       dispatched (trace s1) ++ ordinary (event_queue s1))
              (queue_kept_step _) fuel (run_init h self rp) s0) as [Hsub Hq];
    [|done|].
  - change (event_queue (run_init h self rp))
      with ([InitGameEvent] ++ replay_events rp ++ [EndGameEvent]).
    by rewrite !ordinary_app.
  - by rewrite Hq, app_nil_r in Hsub.
Qed.

Lemma calls_complete_step (event : EventObj) (rest : list EventObj)
    (s s' : RunState U) :
  calls_complete (trace s) → event_queue s = event :: rest →
  loop_body objs event (popleft s rest) = Normal s' →
  calls_complete (trace s').
Proof.
  intros Hc _ Hb.
  assert (∃ ext, trace s' = trace s ++ ext
                 ∧ starts_with_call ext = false
                 ∧ ∀ l e hs t2, ext = l ++ Dispatch e hs :: t2 →
                                l = [] ∧ t2 = invocations e hs) as (ext & Htr & Hext & Hsplit).
  { destruct (loop_body_cases objs event (popleft s rest))
      as [(q & c & d & l & -> & Hrm & s1 & Hs1 & _ & _ & _ & _ & _ & Htr & _)
         |[(x & Hx & _)|Hname]].
    - rewrite Hb in Hs1. simpl in Hs1. subst s1. exists [Exit q].
      split_and!; [done|done|].
      intros l0 e hs t2 Hl0. destruct l0 as [|? [|? ?]]; inversion Hl0.
    - by rewrite Hb in Hx.
    - destruct (loop_body_dispatch objs event (popleft s rest) Hname)
        as (hs1 & hs2 & Hhs & _ & _ & _ & Htr & Hres).
      rewrite Hb in Htr, Hres. simpl in Htr. destruct Hres as (E & _). subst hs2.
      rewrite app_nil_r in Hhs. subst hs1. eexists. split_and!; [exact Htr|done|].
      intros l0 e hs t2 Hl0.
      apply dispatch_ext_split in Hl0 as [(-> & Heq & ->)|(h' & ? & _)]; [|done].
      by inversion Heq. }
  intros t1 e hs t2 Ht. rewrite Htr in Ht.
  apply app_eq_split in Ht as [(t2' & Ht & ->)|(l0 & -> & Hl0)].
  - destruct (Hc _ _ _ _ Ht) as (t3 & -> & Ht3).
    exists (t3 ++ ext). split; [by rewrite <- app_assoc|].
    destruct t3 as [|o t3]; [done|]. by destruct o.
  - destruct (Hsplit _ _ _ _ Hl0) as (-> & ->). exists [].
    by rewrite app_nil_r.
Qed.

Lemma run_calls_complete (fuel : nat) (h : gmap nat (list Plugin))
    (self : GameEngine) (rp : Replay U) (s : RunState U) :
  run objs fuel h self rp = Finished s → calls_complete (trace s).
Proof.
  intros Hrun. apply run_Finished in Hrun as (s0 & rp' & Hloop & Hrec & ->). simpl.
  destruct (while_loop_finished_invariant objs (λ s1, calls_complete (trace s1))
              calls_complete_step fuel (run_init h self rp) s0) as [Hc _];
    [|done|done].
  intros t1 e hs t2 Ht. by destruct t1.
Qed.

(** X13. In a run that drains its queue, each processed event is followed
    in the log by one call of every handler of its list, in the order of the
    list, before anything else happens: the handlers of an event all run
    before the next event is taken from the queue. *)
Theorem X13_handlers_run_before_next_event (fuel : nat)
    (h : gmap nat (list Plugin)) (self : GameEngine) (rp : Replay U)
    (s : RunState U) (t1 : list Obs) (e : EventObj) (hs : list Handler)
    (t2 : list Obs) :
  run objs fuel h self rp = Finished s →
  trace s = t1 ++ Dispatch e hs :: t2 →
  ∃ t3, t2 = invocations e hs ++ t3 ∧ starts_with_call t3 = false.
Proof.
  intros Hrun Ht. by apply (run_calls_complete fuel h self rp s Hrun t1 e hs t2).
Qed.

End Queue.

(** * The sentinel events, and plugins that left *)

Section Sentinels.

Context {U : Type} (objs : Plugin → PluginObj U).









(** X14. If plugin [p] is listed at most once in the registry and no other
    plugin is [==] to it, then once a run has processed an exit event naming
    [p], no handler of [p] is called for any event processed later in that
    run. *)
Theorem X14_no_handler_after_exit (fuel : nat) (h : gmap nat (list Plugin))
    (self : GameEngine) (rp : Replay U) (p : Plugin) :
  occurrences p (h !!! _plugins self) ≤ 1 →
  (∀ y, y ≠ p → plugin_eq (objs y) p = false) →
  silent_after_exit p (trace (state_of (run objs fuel h self rp))).
Proof.
  intros Hocc Hsolo.
  destruct (run_state objs fuel h self rp) as (_ & _ & _ & _ & ->).
  apply (while_loop_invariant objs (exit_inv p)).
  - intros e rest s Hs _. by apply (exit_inv_step objs p e (popleft s rest)).
  - unfold exit_inv. rewrite run_init_active. split_and!; [done| | |].
    + intros n hs hd q Hl. simpl in Hl. by rewrite lookup_empty in Hl.
    + intros Hin. by apply not_elem_of_nil in Hin.
    + intros t1 t2 hd e Ht. by destruct t1.
Qed.

End Sentinels.

(** * Concrete runs, further *)

Section ConcreteFurther.

Import Fixtures.

(** Registering plugins 1 and 2 after plugin 0; the list at another
    reference is not touched. *)
Lemma X1_witness :
  register_plugins (engine_heap [0]) (engine [0]) [1; 2] !!! _plugins (engine [0])
    = [0; 1; 2]
  ∧ 1 ≠ _plugins (engine [0])
  ∧ register_plugins (engine_heap [0]) (engine [0]) [1; 2] !! 1
    = engine_heap [0] !! 1.
Proof.
  destruct (X1_register_plugins_appends (engine_heap [0]) (engine [0]) [1; 2] 3)
    as (Happ & _ & Hother & _).
  assert (1 ≠ _plugins (engine [0])) as Hne by (vm_compute; lia).
  split_and!; [by rewrite Happ|exact Hne|].
  by destruct (Hother 1 Hne).
Defined.

(** A second engine built in the heap of the first. *)
Lemma X2_witness :
  is_Some (engine_heap [0] !! 0)
  ∧ snd (__init__ (engine_heap [0]) [1]) !! 0 = engine_heap [0] !! 0
  ∧ snd (__init__ (snd (__init__ (engine_heap [0]) [1])) [2])
      !!! _plugins (fst (__init__ (engine_heap [0]) [1]))
    = [1].
Proof.
  assert (is_Some (engine_heap [0] !! 0)) as Hsome
    by (vm_compute; eexists; reflexivity).
  destruct (X2_engines_have_their_own_registry (engine_heap [0]) [1] [2])
    as (_ & _ & Hold & _ & Hfirst & _).
  split_and!; [exact Hsome|by apply Hold|exact Hfirst].
Defined.

(** Plugin 9 has [handleX = None]: for [X] its list is that [None]. *)
Lemma X4_witness :
  attrs (objs 9) !! ("handle" +:+ "X") = Some NoneValue
  ∧ PyNone ∈ _get_plugin_event_handlers objs 9 X.
Proof.
  assert (attrs (objs 9) !! ("handle" +:+ "X") = Some NoneValue) as Hnone
    by (vm_compute; reflexivity).
  split; [exact Hnone|].
  destruct (X4_plugin_handlers_membership objs 9 X PyNone) as (_ & Hiff & _).
  apply Hiff. exists "X". split; [exact Hnone|by left].
Defined.

(** The call of plugin 2 for the second [X], after plugin 5 left. *)
Lemma X5_witness :
  Invoke (BoundMethod 2 "handleX") X
    ∈ trace (state_of (run objs 10 (engine_heap [5; 2]) (engine [5; 2])
                           (replay_of [X; X])))
  ∧ name (Obj X) ≠ "PluginExit"
  ∧ ∃ p m, BoundMethod 2 "handleX" = BoundMethod p ("handle" +:+ m)
           ∧ p ∈ engine_heap [5; 2] !!! _plugins (engine [5; 2])
           ∧ hasattr objs p ("handle" +:+ m) = true.
Proof.
  assert (Invoke (BoundMethod 2 "handleX") X
            ∈ trace (state_of (run objs 10 (engine_heap [5; 2]) (engine [5; 2])
                                   (replay_of [X; X])))) as Hin.
  { replace (trace (state_of (run objs 10 (engine_heap [5; 2]) (engine [5; 2])
                                   (replay_of [X; X]))))
      with [Dispatch InitGameEvent [];
            Dispatch X [BoundMethod 5 "handleX"; BoundMethod 2 "handleX"];
            Invoke (BoundMethod 5 "handleX") X;
            Invoke (BoundMethod 2 "handleX") X;
            Exit 5;
            Dispatch X [BoundMethod 2 "handleX"];
            Invoke (BoundMethod 2 "handleX") X;
            Dispatch EndGameEvent []]
      by (vm_compute; reflexivity).
    do 3 right. left. }
  split; [exact Hin|].
  exact (X5_run_calls_registered_handle_methods objs 10 _ _ _ _ _ Hin).
Defined.

(** The second exit of plugin 3 aborts the run. *)
Lemma X6_witness :
  run objs 10 (engine_heap [3; 2]) (engine [3; 2]) (replay_of [X])
    = Aborted ValueError
        (state_of (run objs 10 (engine_heap [3; 2]) (engine [3; 2]) (replay_of [X])))
  ∧ ∃ n s0 event rest,
      n < 10
      ∧ while_loop objs n (run_init (engine_heap [3; 2]) (engine [3; 2])
                                    (replay_of [X])) = Running s0
      ∧ event_queue s0 = event :: rest.
Proof.
  assert (run objs 10 (engine_heap [3; 2]) (engine [3; 2]) (replay_of [X])
          = Aborted ValueError
              (state_of (run objs 10 (engine_heap [3; 2]) (engine [3; 2])
                             (replay_of [X])))) as Hrun
    by (vm_compute; reflexivity).
  split; [exact Hrun|].
  destruct (X6_causes_of_abort objs 10 _ _ _ _ _ Hrun)
    as [(n & s0 & event & rest & Hn & Hloop & Hq & _)|(s0 & p & _ & Hx & _)];
    [|done].
  by exists n, s0, event, rest.
Defined.

(** Plugin 2 only prints: the run over two events takes four steps. *)
Lemma X7_witness :
  (∀ p, p ∈ engine_heap [2] !!! _plugins (engine [2]) → quiet_plugin objs p)
  ∧ (∀ p, p ∈ engine_heap [2] !!! _plugins (engine [2]) →
          is_Some (plugin_name (objs p)))
  ∧ (∀ e, e ∈ replay_events (replay_of [X; X]) → name (Obj e) ≠ "PluginExit")
  ∧ ∃ s, run objs (length (replay_events (replay_of [X; X])) + 2 + 0)
             (engine_heap [2]) (engine [2]) (replay_of [X; X]) = Finished s
         ∧ event_queue s = []
         ∧ active s = engine_heap [2] !!! _plugins (engine [2])
         ∧ replay_plugins (replay s) !! "listener" = Some (0%Z, ∅).
Proof.
  assert (∀ p, p ∈ engine_heap [2] !!! _plugins (engine [2]) → p = 2) as Honly.
  { intros p Hp.
    replace (engine_heap [2] !!! _plugins (engine [2])) with [2] in Hp
      by (vm_compute; reflexivity).
    by apply list_elem_of_singleton in Hp. }
  assert (∀ p, p ∈ engine_heap [2] !!! _plugins (engine [2]) → quiet_plugin objs p)
    as Hquiet.
  { intros p Hp. rewrite (Honly p Hp).
    unfold quiet_plugin. simpl. unfold listener, plain. simpl.
    rewrite !fmap_insert, fmap_empty.
    repeat apply map_Forall_insert_2; [| |apply map_Forall_empty];
      (eexists; split; [reflexivity|]); intros e rp; by eexists _, _. }
  assert (∀ p, p ∈ engine_heap [2] !!! _plugins (engine [2]) →
               is_Some (plugin_name (objs p))) as Hnamed.
  { intros p Hp. rewrite (Honly p Hp). by eexists. }
  assert (∀ e, e ∈ replay_events (replay_of [X; X]) → name (Obj e) ≠ "PluginExit")
    as Hnames.
  { intros e He. simpl in He. rewrite !elem_of_cons, elem_of_nil in He.
    by destruct He as [->|[->|[]]]. }
  split_and!; [exact Hquiet|exact Hnamed|exact Hnames|].
  destruct (X7_quiet_run_terminates objs 0 _ _ _ Hquiet Hnamed Hnames)
    as (s & Hrun & Hq & Hact & _ & Hrec).
  exists s. split_and!; [done|done|done|].
  destruct (Hrec 2) as (n & Hn & Hl).
  { replace (engine_heap [2] !!! _plugins (engine [2])) with [2]
      by (vm_compute; reflexivity).
    by left. }
  inversion Hn; subst n. exact Hl.
Defined.

(** An engine without plugins, on a replay of two events. *)
Lemma X8_witness :
  engine_heap [] !!! _plugins (engine []) = []
  ∧ (∀ e, e ∈ replay_events (replay_of [X; Y]) → name (Obj e) ≠ "PluginExit")
  ∧ ∃ s, run objs (length (replay_events (replay_of [X; Y])) + 2 + 0)
             (engine_heap []) (engine []) (replay_of [X; Y]) = Finished s
         ∧ replay s = mkReplay [X; Y] ∅ [].
Proof.
  assert (∀ e, e ∈ replay_events (replay_of [X; Y]) → name (Obj e) ≠ "PluginExit")
    as Hnames.
  { intros e He. simpl in He. rewrite !elem_of_cons, elem_of_nil in He.
    by destruct He as [->|[->|[]]]. }
  split_and!; [reflexivity|exact Hnames|].
  destruct (X8_run_without_plugins objs 0 (engine_heap []) (engine [])
              (replay_of [X; Y]) eq_refl Hnames) as (s & Hrun & Hrp & _).
  by exists s.
Defined.

(** Plugin 5 is recorded at its exit, plugin 2 by the final loop. *)
Lemma X9_witness :
  (∀ p, p ∈ engine_heap [5; 2] !!! _plugins (engine [5; 2]) → keeps_outcomes objs p)
  ∧ (∀ p, p ∈ engine_heap [5; 2] !!! _plugins (engine [5; 2]) → default_eq objs p)
  ∧ run objs 10 (engine_heap [5; 2]) (engine [5; 2]) (replay_of [X; X])
    = Finished (state_of (run objs 10 (engine_heap [5; 2]) (engine [5; 2])
                              (replay_of [X; X])))
  ∧ ("leaver"
       ∈ dom (replay_plugins
                (replay (state_of (run objs 10 (engine_heap [5; 2]) (engine [5; 2])
                                       (replay_of [X; X])))))
     ↔ ∃ p, p ∈ engine_heap [5; 2] !!! _plugins (engine [5; 2])
            ∧ plugin_name (objs p) = Some "leaver").
Proof.
  assert (∀ p, p ∈ engine_heap [5; 2] !!! _plugins (engine [5; 2]) →
               p = 5 ∨ p = 2) as Honly.
  { intros p Hp.
    replace (engine_heap [5; 2] !!! _plugins (engine [5; 2])) with [5; 2] in Hp
      by (vm_compute; reflexivity).
    rewrite !elem_of_cons, elem_of_nil in Hp. tauto. }
  assert (∀ p, p ∈ engine_heap [5; 2] !!! _plugins (engine [5; 2]) →
               keeps_outcomes objs p) as Hkeep.
  { intros p Hp.
    destruct (Honly p Hp) as [->| ->]; unfold keeps_outcomes; simpl.
    - unfold leaver, plain. simpl. rewrite !fmap_insert, fmap_empty.
      repeat apply map_Forall_insert_2; [|apply map_Forall_empty].
      intros f e rp r rp' [= <-] Hcall. by inversion Hcall.
    - unfold listener, plain. simpl. rewrite !fmap_insert, fmap_empty.
      repeat apply map_Forall_insert_2; [| |apply map_Forall_empty];
        intros f e rp r rp' [= <-] Hcall; by inversion Hcall. }
  assert (∀ p, p ∈ engine_heap [5; 2] !!! _plugins (engine [5; 2]) →
               default_eq objs p) as Hdef.
  { intros p Hp q. by destruct (Honly p Hp) as [->| ->]. }
  assert (run objs 10 (engine_heap [5; 2]) (engine [5; 2]) (replay_of [X; X])
          = Finished (state_of (run objs 10 (engine_heap [5; 2]) (engine [5; 2])
                                    (replay_of [X; X])))) as Hrun
    by (vm_compute; reflexivity).
  split_and!; [exact Hkeep|exact Hdef|exact Hrun|].
  exact (X9_outcome_keys_are_registered_names objs 10 _ _ _ _ "leaver"
           Hkeep Hdef Hrun).
Defined.

(** The second [X], processed after the exit of plugin 5, goes to the
    handlers resolved against plugin 2 alone. *)
Lemma X11_witness :
  consistent_names
    (dispatched (trace (state_of (run objs 10 (engine_heap [5; 2]) (engine [5; 2])
                                      (replay_of [X; X]))))) = true
  ∧ trace (state_of (run objs 10 (engine_heap [5; 2]) (engine [5; 2])
                         (replay_of [X; X])))
    = [Dispatch InitGameEvent [];
       Dispatch X [BoundMethod 5 "handleX"; BoundMethod 2 "handleX"];
       Invoke (BoundMethod 5 "handleX") X;
       Invoke (BoundMethod 2 "handleX") X;
       Exit 5]
      ++ Dispatch X [BoundMethod 2 "handleX"]
      :: [Invoke (BoundMethod 2 "handleX") X; Dispatch EndGameEvent []]
  ∧ [BoundMethod 2 "handleX"]
    = _get_event_handlers objs X
        (active_after objs (engine_heap [5; 2] !!! _plugins (engine [5; 2]))
           [Dispatch InitGameEvent [];
            Dispatch X [BoundMethod 5 "handleX"; BoundMethod 2 "handleX"];
            Invoke (BoundMethod 5 "handleX") X;
            Invoke (BoundMethod 2 "handleX") X;
            Exit 5]).
Proof.
  assert (consistent_names
            (dispatched (trace (state_of (run objs 10 (engine_heap [5; 2])
                                              (engine [5; 2]) (replay_of [X; X])))))
          = true) as Hcons by (vm_compute; reflexivity).
  assert (trace (state_of (run objs 10 (engine_heap [5; 2]) (engine [5; 2])
                               (replay_of [X; X])))
          = [Dispatch InitGameEvent [];
             Dispatch X [BoundMethod 5 "handleX"; BoundMethod 2 "handleX"];
             Invoke (BoundMethod 5 "handleX") X;
             Invoke (BoundMethod 2 "handleX") X;
             Exit 5]
            ++ Dispatch X [BoundMethod 2 "handleX"]
            :: [Invoke (BoundMethod 2 "handleX") X; Dispatch EndGameEvent []])
    as Htr by (vm_compute; reflexivity).
  split_and!; [exact Hcons|exact Htr|].
  exact (X11_dispatch_is_resolution objs 10 _ _ _ _ _ _ _ Hcons Htr).
Defined.

(** Both [X] of the replay are processed, between the sentinels. *)
Lemma X12_witness :
  run objs 10 (engine_heap [5; 2]) (engine [5; 2]) (replay_of [X; X])
    = Finished (state_of (run objs 10 (engine_heap [5; 2]) (engine [5; 2])
                              (replay_of [X; X])))
  ∧ (InitGameEvent :: ordinary (replay_events (replay_of [X; X])) ++ [EndGameEvent])
      `sublist_of`
      dispatched (trace (state_of (run objs 10 (engine_heap [5; 2]) (engine [5; 2])
                                       (replay_of [X; X])))).
Proof.
  assert (run objs 10 (engine_heap [5; 2]) (engine [5; 2]) (replay_of [X; X])
          = Finished (state_of (run objs 10 (engine_heap [5; 2]) (engine [5; 2])
                                    (replay_of [X; X])))) as Hrun
    by (vm_compute; reflexivity).
  split; [exact Hrun|].
  exact (X12_replay_events_processed_in_order objs 10 _ _ _ _ Hrun).
Defined.

(** The first [X] has two handlers; both are called before the exit that
    one of them yielded is processed. *)
Lemma X13_witness :
  run objs 10 (engine_heap [5; 2]) (engine [5; 2]) (replay_of [X; X])
    = Finished (state_of (run objs 10 (engine_heap [5; 2]) (engine [5; 2])
                              (replay_of [X; X])))
  ∧ trace (state_of (run objs 10 (engine_heap [5; 2]) (engine [5; 2])
                         (replay_of [X; X])))
    = [Dispatch InitGameEvent []]
      ++ Dispatch X [BoundMethod 5 "handleX"; BoundMethod 2 "handleX"]
      :: [Invoke (BoundMethod 5 "handleX") X;
          Invoke (BoundMethod 2 "handleX") X;
          Exit 5;
          Dispatch X [BoundMethod 2 "handleX"];
          Invoke (BoundMethod 2 "handleX") X;
          Dispatch EndGameEvent []]
  ∧ ∃ t3,
      [Invoke (BoundMethod 5 "handleX") X;
       Invoke (BoundMethod 2 "handleX") X;
       Exit 5;
       Dispatch X [BoundMethod 2 "handleX"];
       Invoke (BoundMethod 2 "handleX") X;
       Dispatch EndGameEvent []]
      = invocations X [BoundMethod 5 "handleX"; BoundMethod 2 "handleX"] ++ t3
      ∧ starts_with_call t3 = false.
Proof.
  assert (run objs 10 (engine_heap [5; 2]) (engine [5; 2]) (replay_of [X; X])
          = Finished (state_of (run objs 10 (engine_heap [5; 2]) (engine [5; 2])
                                    (replay_of [X; X])))) as Hrun
    by (vm_compute; reflexivity).
  assert (trace (state_of (run objs 10 (engine_heap [5; 2]) (engine [5; 2])
                               (replay_of [X; X])))
          = [Dispatch InitGameEvent []]
            ++ Dispatch X [BoundMethod 5 "handleX"; BoundMethod 2 "handleX"]
            :: [Invoke (BoundMethod 5 "handleX") X;
                Invoke (BoundMethod 2 "handleX") X;
                Exit 5;
                Dispatch X [BoundMethod 2 "handleX"];
                Invoke (BoundMethod 2 "handleX") X;
                Dispatch EndGameEvent []]) as Htr
    by (vm_compute; reflexivity).
  split_and!; [exact Hrun|exact Htr|].
  exact (X13_handlers_run_before_next_event objs 10 _ _ _ _ _ _ _ _ Hrun Htr).
Defined.


(** Plugin 5, registered once, exits and is not called again. *)
Lemma X14_witness :
  occurrences 5 (engine_heap [5; 2] !!! _plugins (engine [5; 2])) ≤ 1
  ∧ (∀ y, y ≠ 5 → plugin_eq (objs y) 5 = false)
  ∧ silent_after_exit 5
      (trace (state_of (run objs 10 (engine_heap [5; 2]) (engine [5; 2])
                            (replay_of [X; X])))).
Proof.
  assert (occurrences 5 (engine_heap [5; 2] !!! _plugins (engine [5; 2])) ≤ 1)
    as Hocc by (vm_compute; lia).
  assert (∀ y, y ≠ 5 → plugin_eq (objs y) 5 = false) as Hsolo.
  { intros y _. do 9 (destruct y as [|y]; [reflexivity|]). reflexivity. }
  split_and!; [exact Hocc|exact Hsolo|].
  exact (X14_no_handler_after_exit objs 10 _ _ _ 5 Hocc Hsolo).
Defined.

(** A [handleX] that is [None] is put in the list and called: the run of
    plugin 9 over one [X] stops with the [TypeError] of that call, and no
    outcome is recorded. *)
Example none_handler_scenario :
  _get_event_handlers objs X [9] = [PyNone]
  ∧ run objs 10 (engine_heap [9]) (engine [9]) (replay_of [X])
    = Aborted TypeError
        (state_of (run objs 10 (engine_heap [9]) (engine [9]) (replay_of [X])))
  ∧ trace (state_of (run objs 10 (engine_heap [9]) (engine [9]) (replay_of [X])))
    = [Dispatch InitGameEvent []; Dispatch X [PyNone]]
  ∧ replay_plugins
      (replay (state_of (run objs 10 (engine_heap [9]) (engine [9])
                             (replay_of [X])))) = ∅.
Proof. split_and!; vm_compute; reflexivity. Qed.

End ConcreteFurther.
